(** * Archive-content resolution of the Oblivion Remastered mod manager

    A shallow embedding of the archive reader, the layout normalizer, the
    content classifier, the selective extractor and the load-order file
    handling of [src/mods.py].  Python strings are modelled as ASCII
    [string]s, Python sets as [gset], insertion-ordered dicts as
    association lists, and exceptions as the constructors of [exn]. *)

From Stdlib Require Import String Ascii ZArith.
From stdpp Require Import base list gmap strings.

Local Open Scope string_scope.
Local Open Scope list_scope.

Notation "a +s+ b" := (String.append a b) (at level 60, right associativity).

(* ================================================================== *)
(** ** Python string primitives (ASCII) *)

Module PyStr.

(** [str.lower] on one ASCII character. *)
Definition lower_char (c : ascii) : ascii :=
  let n := nat_of_ascii c in
  if (65 <=? n)%nat && (n <=? 90)%nat then ascii_of_nat (n + 32) else c.

(** [s.lower()] *)
Fixpoint lower (s : string) : string :=
  match s with
  | EmptyString => EmptyString
  | String c s' => String (lower_char c) (lower s')
  end.

(** [s.endswith(suf)] *)
Fixpoint ends_with (suf s : string) : bool :=
  String.eqb s suf ||
  match s with
  | EmptyString => false
  | String _ s' => ends_with suf s'
  end.

(** [s.endswith((suf1, suf2, ...))] *)
Definition ends_with_any (sufs : list string) (s : string) : bool :=
  existsb (fun suf => ends_with suf s) sufs.

(** [s.startswith(pre)] *)
Fixpoint starts_with (pre s : string) : bool :=
  match pre, s with
  | EmptyString, _ => true
  | String c pre', String d s' => Ascii.eqb c d && starts_with pre' s'
  | String _ _, EmptyString => false
  end.

(** Leading characters removed while [p] holds ([str.lstrip]). *)
Fixpoint lstrip_by (p : ascii -> bool) (s : string) : string :=
  match s with
  | EmptyString => EmptyString
  | String c s' => if p c then lstrip_by p s' else s
  end.

(** Trailing characters removed while [p] holds ([str.rstrip]). *)
Fixpoint rstrip_by (p : ascii -> bool) (s : string) : string :=
  match s with
  | EmptyString => EmptyString
  | String c s' =>
      let r := rstrip_by p s' in
      if String.eqb r "" && p c then "" else String c r
  end.

Definition strip_by (p : ascii -> bool) (s : string) : string :=
  rstrip_by p (lstrip_by p s).

(** [s.strip(c)] for a one-character argument. *)
Definition strip_char (c : ascii) (s : string) : string :=
  strip_by (Ascii.eqb c) s.

(** The ASCII characters for which [str.isspace] holds: space, \t, \n,
    \x0b, \x0c, \r and \x1c..\x1f. *)
Definition is_space (c : ascii) : bool :=
  let n := nat_of_ascii c in
  (n =? 32)%nat || ((9 <=? n)%nat && (n <=? 13)%nat)
  || ((28 <=? n)%nat && (n <=? 31)%nat).

(** [s.strip()] *)
Definition strip (s : string) : string := strip_by is_space s.

(** [s.split(c)]: never empty; [""] for the empty string. *)
Fixpoint split_on (c : ascii) (s : string) : list string :=
  match s with
  | EmptyString => [""]
  | String d s' =>
      match split_on c s' with
      | [] => [String d ""]
      | w :: ws => if Ascii.eqb d c then "" :: w :: ws else String d w :: ws
      end
  end.

(** [sep.join(parts)] *)
Fixpoint join (sep : string) (parts : list string) : string :=
  match parts with
  | [] => ""
  | [x] => x
  | x :: xs => x +s+ sep +s+ join sep xs
  end.

(** [s.rfind(c)] for a one-character argument ([None] for -1). *)
Fixpoint rfind (c : ascii) (s : string) : option nat :=
  match s with
  | EmptyString => None
  | String d s' =>
      match rfind c s' with
      | Some i => Some (S i)
      | None => if Ascii.eqb c d then Some 0 else None
      end
  end.

(** [x in xs] for a list or set of strings. *)
Definition mem (x : string) (xs : list string) : bool :=
  existsb (String.eqb x) xs.

End PyStr.

Import PyStr.

(* ================================================================== *)
(** ** [pathlib.PurePosixPath] *)

Module PyPath.

(** A parsed path: its root ([""], ["/"] or ["//"]) and its parts; empty
    and ["."] components are dropped as pathlib does. *)
Record pure_path := { pp_root : string; pp_parts : list string }.

Definition parse_path (s : string) : pure_path :=
  {| pp_root :=
       if starts_with "//" s && negb (starts_with "///" s) then "//"
       else if starts_with "/" s then "/" else "";
     pp_parts :=
       List.filter (fun x => negb (String.eqb x "") && negb (String.eqb x "."))
         (split_on "/" s) |}.

(** [str(p)] / [p.as_posix()] *)
Definition as_posix (p : pure_path) : string :=
  match pp_parts p with
  | [] => if String.eqb (pp_root p) "" then "." else pp_root p
  | parts => pp_root p +s+ join "/" parts
  end.

(** [p.name] *)
Definition name (p : pure_path) : string := List.last (pp_parts p) "".

(** The split [name -> (stem, suffix)] of pathlib: the suffix starts at
    the last dot, unless that dot is the first or the last character. *)
Definition split_ext (nm : string) : string * string :=
  match rfind "." nm with
  | Some i =>
      if (0 <? i)%nat && (i <? String.length nm - 1)%nat
      then (substring 0 i nm, substring i (String.length nm - i) nm)
      else (nm, "")
  | None => (nm, "")
  end.

(** [p.stem] and [p.suffix] *)
Definition stem (p : pure_path) : string := fst (split_ext (name p)).
Definition suffix (p : pure_path) : string := snd (split_ext (name p)).

(** [p.parent] *)
Definition parent (p : pure_path) : pure_path :=
  match pp_parts p with
  | [] => p
  | parts => {| pp_root := pp_root p; pp_parts := removelast parts |}
  end.

(** [p / s]: an absolute right operand replaces the left one. *)
Definition div (p : pure_path) (s : string) : pure_path :=
  let q := parse_path s in
  if String.eqb (pp_root q) "" then
    {| pp_root := pp_root p; pp_parts := pp_parts p ++ pp_parts q |}
  else q.

End PyPath.

Import PyPath.

(* ================================================================== *)
(** ** Layout normalizer: [_detect_single_folder_prefix] *)

Module Layout.

(** An archive member as the reader returns it: [(path_str, is_dir)]. *)
Definition member := (string * bool)%type.

Definition PAK_EXTENSIONS : list string := [".pak"; ".ucas"; ".utoc"].

Definition IGNORE_ITEMS : list string :=
  [".ds_store"; "__macosx"; ".git"; ".gitignore"; "thumbs.db"].

(** [('.esp',) + PAK_EXTENSIONS] *)
Definition RELEVANT_EXTENSIONS : list string := ".esp" :: PAK_EXTENSIONS.

(** [name.lower() in IGNORE_ITEMS] *)
Definition ignored (nm : string) : bool := mem (lower nm) IGNORE_ITEMS.

(** [path_str.strip('/').split('/')] *)
Definition path_parts_of (path_str : string) : list string :=
  split_on "/" (strip_char "/" path_str).

(** [p.strip('/').split('/')[0]] *)
Definition first_segment (path_str : string) : string :=
  match path_parts_of path_str with
  | [] => ""
  | seg :: _ => seg
  end.

(** One iteration of the first loop; the state is
    [(top_level_dirs, has_relevant_files_at_root)]. *)
Definition detect_step (st : gset string * bool) (m : member) : gset string * bool :=
  let '(top_level_dirs, has_rel) := st in
  let '(path_str, is_dir) := m in
  match path_parts_of path_str with
  | [] => st
  | seg :: rest =>
      if ignored seg then st
      else match rest with
           | [] =>
               if is_dir then ({[seg]} ∪ top_level_dirs, has_rel)
               else if ends_with_any RELEVANT_EXTENSIONS (lower seg)
                    then (top_level_dirs, true)
                    else st
           | _ :: _ => ({[seg]} ∪ top_level_dirs, has_rel)
           end
  end.

(** The generator condition of [all_inside]. *)
Definition inside (single_folder_name : string) (m : member) : bool :=
  let s := strip_char "/" (fst m) in
  if String.eqb s "" || ignored (first_segment (fst m)) then true
  else String.eqb (first_segment (fst m)) single_folder_name.

Definition detect_single_folder_prefix (member_list : list member) : option string :=
  let '(top_level_dirs, has_rel) := fold_left detect_step member_list (∅, false) in
  let valid_top_dirs := List.filter (fun d => negb (ignored d)) (elements top_level_dirs) in
  match valid_top_dirs with
  | [single_folder_name] =>
      if negb has_rel && forallb (inside single_folder_name) member_list
      then Some (single_folder_name +s+ "/")
      else None
  | _ => None
  end.

(** [if prefix and not path_str.startswith(prefix): continue] *)
Definition skip_by_prefix (prefix : option string) (path_str : string) : bool :=
  match prefix with
  | Some pre => negb (String.eqb pre "") && negb (starts_with pre path_str)
  | None => false
  end.

End Layout.

Import Layout.

(* ================================================================== *)
(** ** Content classifier: the bodies of [find_esps_in_archive] and
    [find_pak_sets_in_archive] after the member list has been read *)

Module Classify.

(** The loop of [find_esps_in_archive]. *)
Definition esps_of_members (members : list member) : list string :=
  let prefix := detect_single_folder_prefix members in
  fold_left
    (fun esps (m : member) =>
       let '(path_str, is_dir) := m in
       if is_dir then esps
       else if skip_by_prefix prefix path_str then esps
       else if ends_with ".esp" (lower path_str) then esps ++ [path_str]
       else esps)
    members [].

(** The dict [{'pak': ..., 'ucas': ..., 'utoc': ...}]. *)
Record pak_set := { pak : option string; ucas : option string; utoc : option string }.

Definition empty_set : pak_set := {| pak := None; ucas := None; utoc := None |}.

Definition set_pak (p : string) (f : pak_set) : pak_set :=
  {| pak := Some p; ucas := ucas f; utoc := utoc f |}.
Definition set_ucas (p : string) (f : pak_set) : pak_set :=
  {| pak := pak f; ucas := Some p; utoc := utoc f |}.
Definition set_utoc (p : string) (f : pak_set) : pak_set :=
  {| pak := pak f; ucas := ucas f; utoc := Some p |}.

(** [(path_obj.parent / path_obj.stem).as_posix().lower()] *)
Definition base_key (path_str : string) : string :=
  let path_obj := parse_path path_str in
  lower (as_posix (div (parent path_obj) (stem path_obj))).

(** [path_obj.suffix.lower()] *)
Definition ext_of (path_str : string) : string := lower (suffix (parse_path path_str)).

(** [found_bases]: an insertion-ordered dict. *)
Definition dict := list (string * pak_set).

Definition dict_mem (k : string) (d : dict) : bool := mem k (map fst d).

(** [d[k] = f(d[k])] for a key already present. *)
Definition dict_modify (k : string) (f : pak_set -> pak_set) (d : dict) : dict :=
  map (fun kv => if String.eqb (fst kv) k then (fst kv, f (snd kv)) else kv) d.

(** The body of the loop over the members in [find_pak_sets_in_archive]. *)
Definition pak_step (prefix : option string) (found_bases : dict) (m : member) : dict :=
  let '(path_str, is_dir) := m in
  if is_dir then found_bases
  else if skip_by_prefix prefix path_str then found_bases
  else
    let lower_path := lower path_str in
    if ends_with_any PAK_EXTENSIONS lower_path then
      let bk := base_key path_str in
      let fb := if dict_mem bk found_bases then found_bases
                else found_bases ++ [(bk, empty_set)] in
      let ext := ext_of path_str in
      if String.eqb ext ".pak" then dict_modify bk (set_pak path_str) fb
      else if String.eqb ext ".ucas" then dict_modify bk (set_ucas path_str) fb
      else if String.eqb ext ".utoc" then dict_modify bk (set_utoc path_str) fb
      else fb
    else found_bases.

(** Python truthiness of an optional path. *)
Definition truthy (o : option string) : bool :=
  match o with Some s => negb (String.eqb s "") | None => false end.

Definition complete (files : pak_set) : bool :=
  truthy (pak files) && truthy (ucas files) && truthy (utoc files).

Definition found_bases_of (members : list member) : dict :=
  fold_left (pak_step (detect_single_folder_prefix members)) members [].

Definition pak_sets_of_members (members : list member) : list pak_set :=
  fold_left
    (fun pak_sets (kv : string * pak_set) =>
       if complete (snd kv) then pak_sets ++ [snd kv] else pak_sets)
    (found_bases_of members) [].

End Classify.

Import Classify.




(* ================================================================== *)
(** ** Archive reader and extractor with Python's exception handling *)

Module Archive.

(** The exception classes that reach the handlers of [mods.py]; [OSError]
    stands for any other [Exception] subclass. *)
Inductive exn :=
  | FileNotFoundError (msg : string)
  | ValueError (msg : string)
  | RuntimeError (msg : string)
  | KeyError (msg : string)
  | NameError (msg : string)
  | AttributeError (msg : string)
  | BadZipFile (msg : string)
  | BadRarFile (msg : string)
  | Bad7zFile (msg : string)
  | UnrarNotFound (msg : string)
  | OSError (msg : string).

(** [str(e)] *)
Definition exn_str (e : exn) : string :=
  match e with
  | FileNotFoundError m | ValueError m | RuntimeError m | KeyError m
  | NameError m | AttributeError m | BadZipFile m | BadRarFile m
  | Bad7zFile m | UnrarNotFound m | OSError m => m
  end.

Inductive result (A : Type) := Ok (a : A) | Err (e : exn).
Arguments Ok {A} a.
Arguments Err {A} e.

(** The world a call runs in: which optional modules imported, what the
    format libraries do on this archive, and the file system after an
    extraction.  A library call either returns or raises. *)
Record env := {
  RAR_SUPPORT : bool;                      (** [import rarfile] succeeded *)
  SEVENZIP_SUPPORT : bool;                 (** [import py7zr] succeeded *)
  rarfile_has_UnrarNotFound : bool;        (** the attribute exists in rarfile *)
  zip_infolist : string -> result (list (string * bool));
  rar_infolist : string -> result (list (string * option bool));
  sz_list : string -> result (list (string * bool));
  mkdir_ok : string -> bool;               (** [ensure_directory_exists] *)
  zip_extract : string -> string -> string -> option exn;  (** archive, member, target *)
  rar_extract : string -> string -> string -> option exn;
  sz_extract : string -> list string -> string -> option exn;
  exists_after : string -> bool            (** [Path(p).exists()] after extracting *)
}.

(** [s.replace('\\', '/')] *)
Fixpoint replace_backslash (s : string) : string :=
  match s with
  | EmptyString => EmptyString
  | String c s' =>
      String (if Ascii.eqb c "092"%char then "/"%char else c) (replace_backslash s')
  end.

(** [Path(archive_path).suffix.lower()] *)
Definition archive_ext (archive_path : string) : string :=
  lower (suffix (parse_path archive_path)).

(** [Path(archive_path).name] *)
Definition archive_name (archive_path : string) : string :=
  name (parse_path archive_path).

(** The [except] chain of [_get_archive_member_list].  Each clause's
    class expression is evaluated only when the earlier clauses did not
    match; naming a module whose import failed raises [NameError]. *)
Definition reader_except (E : env) (archive_path : string) (e : exn) : exn :=
  let nm := archive_name archive_path in
  match e with
  | FileNotFoundError _ => FileNotFoundError ("Archive not found: '" +s+ archive_path +s+ "'")
  | _ =>
    if negb (RAR_SUPPORT E) then NameError "name 'rarfile' is not defined"
    else if negb (SEVENZIP_SUPPORT E) then NameError "name 'py7zr' is not defined"
    else match e with
         | BadZipFile _ | BadRarFile _ | Bad7zFile _ | ValueError _ =>
             ValueError ("Error reading '" +s+ nm +s+ "': " +s+ exn_str e)
         | _ =>
           if negb (rarfile_has_UnrarNotFound E)
           then AttributeError "module 'rarfile' has no attribute 'UnrarNotFound'"
           else match e with
                | UnrarNotFound _ => RuntimeError "Unrar executable not found."
                | _ => RuntimeError ("Unexpected error reading '" +s+ nm +s+ "': " +s+ exn_str e)
                end
         end
  end.

Definition get_archive_member_list (E : env) (archive_path : string) : result (list member) :=
  let ext := archive_ext archive_path in
  let body : result (list member) :=
    if String.eqb ext ".zip" then
      match zip_infolist E archive_path with
      | Ok l => Ok (map (fun mi => (replace_backslash (fst mi), snd mi)) l)
      | Err e => Err e
      end
    else if String.eqb ext ".rar" && RAR_SUPPORT E then
      match rar_infolist E archive_path with
      | Ok l => Ok (map (fun mi => (replace_backslash (fst mi), default false (snd mi))) l)
      | Err e => Err e
      end
    else if String.eqb ext ".7z" && SEVENZIP_SUPPORT E then
      match sz_list E archive_path with
      | Ok l => Ok (map (fun mi => (replace_backslash (fst mi), snd mi)) l)
      | Err e => Err e
      end
    else Err (ValueError ("Unsupported/unavailable type: " +s+ ext)) in
  match body with
  | Ok members => Ok members
  | Err e => Err (reader_except E archive_path e)
  end.

(** [except (FileNotFoundError, ValueError, RuntimeError) as e: raise e] *)
Definition reraised (e : exn) : bool :=
  match e with
  | FileNotFoundError _ | ValueError _ | RuntimeError _ => true
  | _ => false
  end.

Definition find_esps_in_archive (E : env) (archive_path : string) : result (list string) :=
  match get_archive_member_list E archive_path with
  | Ok members => Ok (esps_of_members members)
  | Err e =>
      if reraised e then Err e
      else Err (RuntimeError ("Error searching ESPs in '" +s+ archive_name archive_path
                              +s+ "': " +s+ exn_str e))
  end.

Definition find_pak_sets_in_archive (E : env) (archive_path : string) : result (list pak_set) :=
  match get_archive_member_list E archive_path with
  | Ok members => Ok (pak_sets_of_members members)
  | Err e =>
      if reraised e then Err e
      else Err (RuntimeError ("Error searching Pak sets in '" +s+ archive_name archive_path
                              +s+ "': " +s+ exn_str e))
  end.

(** The [except] chain of [_extract_files_from_archive]. *)
Definition extract_except (E : env) (archive_path : string) (e : exn) : exn :=
  let nm := archive_name archive_path in
  match e with
  | FileNotFoundError _ => FileNotFoundError ("Archive not found: '" +s+ archive_path +s+ "'")
  | _ =>
    if negb (RAR_SUPPORT E) then NameError "name 'rarfile' is not defined"
    else if negb (SEVENZIP_SUPPORT E) then NameError "name 'py7zr' is not defined"
    else match e with
         | KeyError _ | BadZipFile _ | BadRarFile _ | Bad7zFile _ | ValueError _ =>
             ValueError ("Error extracting from '" +s+ nm +s+ "': " +s+ exn_str e)
         | _ =>
           if negb (rarfile_has_UnrarNotFound E)
           then AttributeError "module 'rarfile' has no attribute 'UnrarNotFound'"
           else match e with
                | UnrarNotFound _ => RuntimeError "Unrar executable not found."
                | _ => RuntimeError ("Unexpected extraction error from '" +s+ nm +s+ "': "
                                     +s+ exn_str e)
                end
         end
  end.

(** [for member in files_to_extract: arc.extract(member, target_dir);
    extracted_paths.append(Path(target_dir) / member)] *)
Fixpoint extract_each (ex : string -> option exn) (target_dir : string)
    (files : list string) (extracted_paths : list pure_path) : result (list pure_path) :=
  match files with
  | [] => Ok extracted_paths
  | member :: rest =>
      match ex member with
      | Some e => Err e
      | None => extract_each ex target_dir rest
                  (extracted_paths ++ [div (parse_path target_dir) member])
      end
  end.

(** The result of the call and the warnings it prints. *)
Definition extract_files_from_archive (E : env) (archive_path : string)
    (files_to_extract : list string) (target_dir : string)
    : result (list string) * list string :=
  let ext := archive_ext archive_path in
  if negb (mkdir_ok E target_dir) then
    (Err (RuntimeError ("Failed target dir: " +s+ target_dir)), [])
  else
    let body : result (list pure_path) :=
      if String.eqb ext ".zip" then
        extract_each (fun m => zip_extract E archive_path m target_dir) target_dir files_to_extract []
      else if String.eqb ext ".rar" && RAR_SUPPORT E then
        extract_each (fun m => rar_extract E archive_path m target_dir) target_dir files_to_extract []
      else if String.eqb ext ".7z" && SEVENZIP_SUPPORT E then
        match sz_extract E archive_path files_to_extract target_dir with
        | Some e => Err e
        | None => Ok (map (fun member => div (parse_path target_dir) member) files_to_extract)
        end
      else Err (ValueError ("Unsupported type for extraction: " +s+ ext)) in
    match body with
    | Err e => (Err (extract_except E archive_path e), [])
    | Ok extracted_paths =>
        let warnings :=
          map (fun p => "WARNING: Extracted file missing: " +s+ as_posix p)
            (List.filter (fun p => negb (exists_after E (as_posix p))) extracted_paths) in
        (Ok (map as_posix extracted_paths), warnings)
    end.

End Archive.

Import Archive.

(* ================================================================== *)
(** ** The load-order file: [read_plugins_file], [write_plugins_file] *)

Module Plugins.

(** Text-mode read with universal newlines: ["\r\n"] and ["\r"] become
    ["\n"]. *)
Fixpoint universal_newlines (s : string) : string :=
  match s with
  | EmptyString => EmptyString
  | String c s' =>
      if Ascii.eqb c "013"%char then
        match s' with
        | String d s'' =>
            if Ascii.eqb d "010"%char then String "010"%char (universal_newlines s'')
            else String "010"%char (universal_newlines s')
        | EmptyString => String "010"%char EmptyString
        end
      else String c (universal_newlines s')
  end.

(** Iterating a text file: the lines, each with its ["\n"]. *)
Fixpoint text_lines (s : string) : list string :=
  match s with
  | EmptyString => []
  | String c s' =>
      if Ascii.eqb c "010"%char then String c EmptyString :: text_lines s'
      else match text_lines s' with
           | [] => [String c EmptyString]
           | ln :: lns => String c ln :: lns
           end
  end.

(** The plugins file: [None] when it does not exist. *)
Definition read_plugins_file (file : option string) : list string :=
  match file with
  | None => []
  | Some content =>
      map strip
        (List.filter
           (fun ln => negb (String.eqb (strip ln) "") && negb (starts_with "#" (strip ln)))
           (text_lines (universal_newlines content)))
  end.

(** Text-mode write: each ["\n"] is written as [linesep]. *)
Fixpoint translate_newlines (linesep : string) (s : string) : string :=
  match s with
  | EmptyString => EmptyString
  | String c s' =>
      if Ascii.eqb c "010"%char then linesep +s+ translate_newlines linesep s'
      else String c (translate_newlines linesep s')
  end.

(** The one-character string ["\n"] (Rocq strings have no escapes). *)
Definition NL : string := String "010"%char EmptyString.

(** The text [f.write] receives. *)
Fixpoint written_text (plugins_list : list string) : string :=
  match plugins_list with
  | [] => ""
  | plugin :: rest =>
      (if String.eqb plugin "" then "" else plugin +s+ NL) +s+ written_text rest
  end.

(** Returns the success flag and the new file contents ([None]: the
    file is left as it was). *)
Definition write_plugins_file (dir_ok : bool) (linesep : string) (plugins_list : list string)
    : bool * option string :=
  if negb dir_ok then (false, None)
  else (true, Some (translate_newlines linesep (written_text plugins_list))).

End Plugins.

Import Plugins.

(* ================================================================== *)
(** ** [process_load_order] *)

Module LoadOrder.

Definition DEFAULT_PLUGINS : list string :=
  ["oblivion.esm"; "dlcbattlehorncastle.esp"; "dlcfrostcrag.esp"; "dlchorsearmor.esp";
   "dlcmehrunesrazor.esp"; "dlcorrery.esp"; "dlcshiveringisles.esp"; "dlcspelltomes.esp";
   "dlcthievesden.esp"; "dlcvilelair.esp"; "knights.esp"; "altarespmain.esp";
   "altardeluxe.esp"; "altaresplocal.esp"].

Definition default_plugins_lower : list string := map lower DEFAULT_PLUGINS.

(** The separation loop: [(default_section, custom_section)]. *)
Definition separate (all_plugins : list string) : list string * list string :=
  fold_left
    (fun (sections : list string * list string) plugin =>
       if mem (lower plugin) default_plugins_lower
       then (fst sections ++ [plugin], snd sections)
       else (fst sections, snd sections ++ [plugin]))
    all_plugins ([], []).

Definition is_digit (c : ascii) : bool :=
  let n := nat_of_ascii c in (48 <=? n)%nat && (n <=? 57)%nat.

(** [re.findall(r'\d+', s)] (ASCII digits). *)
Fixpoint findall_digits (s : string) : list string :=
  match s with
  | EmptyString => []
  | String c s' =>
      let rest := findall_digits s' in
      if is_digit c then
        match s' with
        | String d _ =>
            if is_digit d then
              match rest with
              | r :: rs => String c r :: rs
              | [] => [String c EmptyString]
              end
            else String c EmptyString :: rest
        | EmptyString => [String c EmptyString]
        end
      else rest
  end.

(** [int(s)] for a string of ASCII digits. *)
Fixpoint int_go (acc : Z) (s : string) : Z :=
  match s with
  | EmptyString => acc
  | String c s' => int_go (10 * acc + Z.of_nat (nat_of_ascii c - 48))%Z s'
  end.
Definition int_of (s : string) : Z := int_go 0 s.

(** One [input()] call: a line, or [None] for EOF / interrupt. *)
Definition input := option string.

(** The [while True] loop; the result is the list handed to
    [write_plugins_file], if any. *)
Fixpoint load_order_loop (default_section custom_section : list string)
    (inputs : list input) : option (list string) :=
  match inputs with
  | [] | None :: _ => None
  | Some line :: rest =>
      let new_order_input := strip line in
      if String.eqb new_order_input "" then None
      else
        match findall_digits new_order_input with
        | [] => load_order_loop default_section custom_section rest
        | new_indices_str =>
            let new_indices := map (fun i => (int_of i - 1)%Z) new_indices_str in
            let num_custom := Z.of_nat (length custom_section) in
            if negb (Z.eqb (Z.of_nat (length new_indices)) num_custom) then
              load_order_loop default_section custom_section rest
            else if negb (forallb (fun idx => (0 <=? idx)%Z && (idx <? num_custom)%Z) new_indices) then
              load_order_loop default_section custom_section rest
            else if negb (Z.eqb (Z.of_nat (size (list_to_set new_indices : gset Z))) num_custom) then
              load_order_loop default_section custom_section rest
            else
              (* indices are in range here, so every lookup succeeds *)
              let new_custom_section :=
                omap (fun i => custom_section !! Z.to_nat i) new_indices in
              match rest with
              | Some confirm :: _ =>
                  if String.eqb (strip (lower confirm)) "y"
                  then Some (default_section ++ new_custom_section)
                  else None
              | _ => None
              end
        end
  end.

(** [read_plugins_file()] either raised ([None]) or returned a list. *)
Definition process_load_order (read_result : option (list string)) (inputs : list input)
    : option (list string) :=
  match read_result with
  | None => None
  | Some all_plugins =>
      let '(default_section, custom_section) := separate all_plugins in
      match custom_section with
      | [] => None
      | _ => load_order_loop default_section custom_section inputs
      end
  end.

End LoadOrder.

Import LoadOrder.

(* ================================================================== *)
(** ** Supported archives and the plugins registry *)

Module Registry.

(** [SUPPORTED_EXTENSIONS] *)
Definition SUPPORTED_EXTENSIONS (E : env) : list string :=
  [".zip"] ++ (if RAR_SUPPORT E then [".rar"] else []) ++ (if SEVENZIP_SUPPORT E then [".7z"] else []).

(** [is_supported_archive(filepath)] *)
Definition is_supported_archive (E : env) (filepath : string) : bool :=
  mem (lower (suffix (parse_path filepath))) (SUPPORTED_EXTENSIONS E).

(** The file [plugins.txt] and what the system allows on it. *)
Record plugins_world := {
  pt_content : option string;  (** [None]: the file does not exist *)
  pt_readable : bool;          (** [open(PLUGINS_TXT_PATH, 'r')] succeeds *)
  pt_writable : bool;          (** the parent exists or is created and [open(..., 'w')] succeeds *)
  pt_linesep : string          (** [os.linesep] *)
}.

Definition with_content (W : plugins_world) (c : string) : plugins_world :=
  {| pt_content := Some c; pt_readable := pt_readable W; pt_writable := pt_writable W;
     pt_linesep := pt_linesep W |}.

(** [read_plugins_file()]: [None] when it raises. *)
Definition read_plugins (W : plugins_world) : option (list string) :=
  match pt_content W with
  | None => Some []
  | Some c => if pt_readable W then Some (read_plugins_file (Some c)) else None
  end.

(** [write_plugins_file(plugins_list)]: the flag it returns and the world after. *)
Definition write_plugins (W : plugins_world) (plugins_list : list string) : bool * plugins_world :=
  match write_plugins_file (pt_writable W) (pt_linesep W) plugins_list with
  | (ok, Some c) => (ok, with_content W c)
  | (ok, None) => (ok, W)
  end.

Definition register_plugin (W : plugins_world) (esp_filename_in_archive : string)
    : bool * plugins_world :=
  let esp_basename := name (parse_path esp_filename_in_archive) in
  match read_plugins W with
  | None => (false, W)
  | Some current_plugins =>
      if existsb (fun p => String.eqb (lower esp_basename) (lower p)) current_plugins
      then (true, W)
      else write_plugins W (current_plugins ++ [esp_basename])
  end.

Definition remove_plugin_from_registry (W : plugins_world) (esp_basename : string)
    : bool * plugins_world :=
  match read_plugins W with
  | None => (false, W)
  | Some current_plugins =>
      let updated_plugins :=
        List.filter (fun p => negb (String.eqb (lower p) (lower esp_basename))) current_plugins in
      if Nat.eqb (length updated_plugins) (length current_plugins) then (true, W)
      else write_plugins W updated_plugins
  end.

(** [get_installed_custom_mods()]: a failed read gives [[]]. *)
Definition get_installed_custom_mods (W : plugins_world) : list string :=
  match read_plugins W with
  | None => []
  | Some l => List.filter (fun p => negb (mem (lower p) DEFAULT_PLUGINS)) l
  end.

End Registry.

Import Registry.

(* ================================================================== *)
(** ** Numbered choices and uninstallation *)

Module Menu.

(** [int(s)] on an ASCII string: surrounding whitespace, an optional sign,
    then decimal digits with single underscores between digits. *)
Fixpoint int_digits (acc : Z) (after_us : bool) (s : string) : option Z :=
  match s with
  | EmptyString => if after_us then None else Some acc
  | String c s' =>
      if is_digit c then int_digits (10 * acc + Z.of_nat (nat_of_ascii c - 48))%Z false s'
      else if Ascii.eqb c "_"%char && negb after_us then int_digits acc true s'
      else None
  end.

Definition int_unsigned (s : string) : option Z :=
  match s with
  | String c _ => if is_digit c then int_digits 0 false s else None
  | EmptyString => None
  end.

(** [None] is the [ValueError] of [int]. *)
Definition py_int (s : string) : option Z :=
  let t := strip s in
  match t with
  | String c r =>
      if Ascii.eqb c "+"%char then int_unsigned r
      else if Ascii.eqb c "-"%char then option_map Z.opp (int_unsigned r)
      else int_unsigned t
  | EmptyString => None
  end.

(** How a numbered prompt ends: an item, [None] returned (or the loop
    cancelled), or [sys.exit(1)]. *)
Inductive choice (A : Type) := Picked (x : A) | NoneChosen | Exited.
Arguments Picked {A} x.
Arguments NoneChosen {A}.
Arguments Exited {A}.

(** The [while True] loop shared by the four numbered prompts; a [None]
    input is [EOFError] or [KeyboardInterrupt].  The remaining inputs are
    returned. *)
Fixpoint choose_loop {A} (items : list A) (inputs : list input) : choice A * list input :=
  match inputs with
  | [] => (Exited, [])
  | None :: rest => (Exited, rest)
  | Some line :: rest =>
      let choice := strip (lower line) in
      if String.eqb choice "c" then (NoneChosen, rest)
      else match py_int choice with
           | None => choose_loop items rest
           | Some k =>
               let index := (k - 1)%Z in
               if (0 <=? index)%Z && (index <? Z.of_nat (length items))%Z then
                 (* the index is in range here, so the lookup succeeds *)
                 match items !! Z.to_nat index with
                 | Some x => (Picked x, rest)
                 | None => choose_loop items rest
                 end
               else choose_loop items rest
           end
  end.

Definition select_esp_from_list (esp_files : list string) (inputs : list input)
    : choice string * list input :=
  match esp_files with
  | [] => (NoneChosen, inputs)
  | [x] => (Picked x, inputs)
  | _ => choose_loop esp_files inputs
  end.

(** [None]: computing [Path(s['pak']).name] raised on a missing [.pak]. *)
Definition select_pak_set_from_list (pak_sets : list pak_set) (inputs : list input)
    : option (choice pak_set * list input) :=
  match pak_sets with
  | [] => Some (NoneChosen, inputs)
  | _ =>
      if existsb (fun s => match pak s with Some _ => false | None => true end) pak_sets
      then None
      else match pak_sets with
           | [x] => Some (Picked x, inputs)
           | _ => Some (choose_loop pak_sets inputs)
           end
  end.

(** How a top-level call ends: a returned flag, [sys.exit(1)], or an
    exception that escapes the function. *)
Inductive outcome := Returned (b : bool) | SysExit | Raised.

(** The files of a directory as the deleting functions see them:
    [Path(p).exists()] before the call and what [Path(p).unlink()] raises. *)
Record files := {
  fs_exists : string -> bool;
  fs_unlink : string -> option exn
}.

(** [delete_esp_file(esp_basename)] with [ESP_DATA_PATH] = [esp_data]:
    the flag and the paths unlinked. *)
Definition delete_esp_file (esp_data : pure_path) (F : files) (esp_basename : string)
    : bool * list string :=
  let esp_file_path := as_posix (div esp_data esp_basename) in
  if negb (fs_exists F esp_file_path) then (true, [])
  else match fs_unlink F esp_file_path with
       | None => (true, [esp_file_path])
       | Some _ => (false, [])
       end.

(** [process_esp_uninstallation()]: the outcome, the registry after and
    the paths unlinked. *)
Definition process_esp_uninstallation (esp_data : pure_path) (W : plugins_world) (F : files)
    (inputs : list input) : outcome * plugins_world * list string :=
  match get_installed_custom_mods W with
  | [] => (Returned true, W, [])
  | mods =>
      match choose_loop mods inputs with
      | (Picked esp_to_del, rest) =>
          match rest with
          | Some conf :: _ =>
              if negb (String.eqb (strip (lower conf)) "y") then (Returned false, W, [])
              else
                let '(reg_ok, W') := remove_plugin_from_registry W esp_to_del in
                let '(file_ok, deleted) := delete_esp_file esp_data F esp_to_del in
                (Returned (reg_ok && file_ok), W', deleted)
          | _ => (Raised, W, [])  (* the confirmation [input()] is outside the [try] *)
          end
      | (NoneChosen, _) => (Returned false, W, [])
      | (Exited, _) => (SysExit, W, [])
      end
  end.


(** [delete_pak_mod_files(pak_basename)]: the flag and the paths unlinked;
    a path unlinked earlier in the loop no longer exists. *)
Definition delete_pak_mod_files (pak_mods : pure_path) (F : files) (pak_basename : string)
    : bool * list string :=
  let base := stem (parse_path pak_basename) in
  let files_del := [div pak_mods pak_basename; div pak_mods (base +s+ ".ucas");
                    div pak_mods (base +s+ ".utoc")] in
  fold_left
    (fun (st : bool * list string) fp =>
       let '(all_ok, deleted) := st in
       let s := as_posix fp in
       if fs_exists F s && negb (mem s deleted) then
         match fs_unlink F s with
         | None => (all_ok, deleted ++ [s])
         | Some _ => (false, deleted)
         end
       else if negb (String.eqb (lower (suffix fp)) ".pak") then (all_ok, deleted)
       else (false, deleted))
    files_del (true, []).


(** [extract_esp_to_temp(archive_path, esp_path_in_archive, temp_dir)];
    [OSError] here is the [IndexError] of [extracted_list[0]]. *)
Definition extract_esp_to_temp (E : env) (archive_path esp_path_in_archive temp_dir : string)
    : result string :=
  let fail (e : exn) : result string :=
    Err (RuntimeError ("Failed ESP extraction '" +s+ esp_path_in_archive +s+ "': " +s+ exn_str e)) in
  let temp_path := parse_path temp_dir in
  match fst (extract_files_from_archive E archive_path [esp_path_in_archive] (as_posix temp_path)) with
  | Err e => fail e
  | Ok [] => fail (OSError "list index out of range")
  | Ok (p0 :: _) =>
      let extracted_path := parse_path p0 in
      if exists_after E (as_posix extracted_path) then Ok (as_posix extracted_path)
      else fail (FileNotFoundError ("Failed extraction: '" +s+ esp_path_in_archive +s+ "'"))
  end.

(** [process_pak_installation(archive_path)] with [PAK_MODS_PATH] =
    [pak_mods] and [exists_before] the files there before extracting: the
    outcome and the result of the [_extract_files_from_archive] call, if
    it is made.  A [None] answer to the overwrite prompt is [EOFError],
    caught by [except Exception]. *)
Definition process_pak_installation (E : env) (pak_mods : pure_path)
    (exists_before : string -> bool) (archive_path : string) (inputs : list input)
    : outcome * option (result (list string)) :=
  match find_pak_sets_in_archive E archive_path with
  | Err _ => (Returned false, None)
  | Ok [] => (Returned false, None)
  | Ok pak_sets =>
      match select_pak_set_from_list pak_sets inputs with
      | None => (Returned false, None)
      | Some (Exited, _) => (SysExit, None)
      | Some (NoneChosen, _) => (Returned false, None)
      | Some (Picked selected_set, rest) =>
          match pak selected_set, ucas selected_set, utoc selected_set with
          | Some a, Some b, Some c =>
              let files_in_arc := [a; b; c] in
              let target_names := map (fun f => name (parse_path f)) files_in_arc in
              if negb (mkdir_ok E (as_posix pak_mods)) then (Returned false, None)
              else
                let existing :=
                  List.filter (fun f => exists_before (as_posix (div pak_mods f))) target_names in
                let go : option bool :=
                  match existing with
                  | [] => Some true
                  | _ => match rest with
                         | Some ovr :: _ => Some (String.eqb (strip (lower ovr)) "y")
                         | _ => None
                         end
                  end in
                match go with
                | Some true =>
                    let r := fst (extract_files_from_archive E archive_path files_in_arc
                                    (as_posix pak_mods)) in
                    match r with
                    | Err _ => (Returned false, Some r)
                    | Ok _ =>
                        (Returned (forallb (fun tn => exists_after E (as_posix (div pak_mods tn)))
                                     target_names), Some r)
                    end
                | _ => (Returned false, None)
                end
          | _, _, _ => (Returned false, None)  (* [Path(None)] raises [TypeError] *)
          end
      end
  end.

(** Where and how [install_esp_file] and [process_esp_installation] copy. *)
Record esp_target := {
  esp_data : pure_path;                    (** [ESP_DATA_PATH] *)
  esp_dir_ok : bool;                       (** [ensure_directory_exists(ESP_DATA_PATH)] *)
  dest_exists : string -> bool;            (** [dest_path.exists()] *)
  copy2 : string -> string -> option exn;  (** what [shutil.copy2(src, dst)] raises *)
  mkdtemp : option string                  (** [tempfile.mkdtemp(...)]; [None]: it raised *)
}.

(** [install_esp_file(extracted_esp_path_str, esp_filename_in_archive)]:
    the outcome and the copy made, if any.  A [None] answer to the
    overwrite prompt is [EOFError], which escapes the function. *)
Definition install_esp_file (T : esp_target) (extracted_esp_path_str esp_filename_in_archive : string)
    (inputs : list input) : outcome * option (string * string) :=
  let esp_basename := name (parse_path esp_filename_in_archive) in
  let dest_path := div (esp_data T) esp_basename in
  let extracted_esp_path := parse_path extracted_esp_path_str in
  let do_copy :=
    match copy2 T (as_posix extracted_esp_path) (as_posix dest_path) with
    | None => (Returned true, Some (as_posix extracted_esp_path, as_posix dest_path))
    | Some _ => (Returned false, None)
    end in
  if negb (esp_dir_ok T) then (Returned false, None)
  else if dest_exists T (as_posix dest_path) then
    match inputs with
    | Some ovr :: _ => if String.eqb (strip (lower ovr)) "y" then do_copy else (Returned false, None)
    | _ => (Raised, None)
    end
  else do_copy.

(** [process_esp_installation(archive_path)]: the outcome, the copy made
    and the registry after.  The temporary directory is removed in
    [finally], which does not change the result. *)
Definition process_esp_installation (E : env) (T : esp_target) (W : plugins_world)
    (archive_path : string) (inputs : list input)
    : outcome * option (string * string) * plugins_world :=
  match find_esps_in_archive E archive_path with
  | Err _ => (Returned false, None, W)
  | Ok [] => (Returned false, None, W)
  | Ok esps =>
      match select_esp_from_list esps inputs with
      | (Exited, _) => (SysExit, None, W)
      | (NoneChosen, _) => (Returned false, None, W)
      | (Picked selected_esp, rest) =>
          if String.eqb selected_esp "" then (Returned false, None, W)
          else match mkdtemp T with
               | None => (Returned false, None, W)
               | Some temp_dir =>
                   match extract_esp_to_temp E archive_path selected_esp
                           (as_posix (parse_path temp_dir)) with
                   | Err _ => (Returned false, None, W)
                   | Ok extracted_path =>
                       match install_esp_file T extracted_path selected_esp rest with
                       | (Returned true, copied) =>
                           let '(ok, W') := register_plugin W selected_esp in
                           (Returned ok, copied, W')
                       | (_, copied) => (Returned false, copied, W)
                       end
                   end
               end
      end
  end.

(** [install_mod_from_archive(archive_path)]: the outcome, the Pak
    extraction made, the ESP copy made and the registry after. *)
Definition install_mod_from_archive (E : env) (pak_mods : pure_path)
    (exists_before : string -> bool) (T : esp_target) (W : plugins_world)
    (archive_path : string) (inputs : list input)
    : outcome * option (result (list string)) * option (string * string) * plugins_world :=
  match find_pak_sets_in_archive E archive_path with
  | Err _ => (Returned false, None, None, W)
  | Ok pak_sets =>
      match find_esps_in_archive E archive_path with
      | Err _ => (Returned false, None, None, W)
      | Ok esp_files =>
          match pak_sets with
          | _ :: _ =>
              let '(o, r) := process_pak_installation E pak_mods exists_before archive_path inputs in
              (o, r, None, W)
          | [] =>
              match esp_files with
              | _ :: _ =>
                  let '(o, copied, W') := process_esp_installation E T W archive_path inputs in
                  (o, None, copied, W')
              | [] => (Returned false, None, None, W)
              end
          end
      end
  end.

End Menu.

Import Menu.


(* ================================================================== *)
(** ** Views of the code's results used to state its properties *)

Module Views.

(** A prefix made of slashes only. *)
Fixpoint all_slash (pre : string) : bool :=
  match pre with
  | EmptyString => true
  | String c pre' => Ascii.eqb c "/" && all_slash pre'
  end.

(** The path with every component lower-cased. *)
Definition lower_path (p : pure_path) : pure_path :=
  {| pp_root := lower (pp_root p); pp_parts := map lower (pp_parts p) |}.

(** Members that reach the grouping code: files, inside the prefix, with
    a lower-cased path ending in a package extension. *)
Definition relevant (prefix : option string) (m : member) : bool :=
  negb (snd m) && negb (skip_by_prefix prefix (fst m))
  && ends_with_any PAK_EXTENSIONS (lower (fst m)).

Definition candidates (members : list member) : list string :=
  map fst (List.filter (relevant (detect_single_folder_prefix members)) members).

(** Keys in order of first occurrence. *)
Definition first_seen (ks : list string) : list string :=
  fold_left (fun acc k => if mem k acc then acc else acc ++ [k]) ks [].

(** The last candidate with key [k] and suffix [e]. *)
Definition last_with (k e : string) (ps : list string) : option string :=
  fold_left
    (fun acc p => if String.eqb (base_key p) k && String.eqb (ext_of p) e then Some p else acc)
    ps None.

Definition unit_of (ps : list string) (k : string) : pak_set :=
  {| pak := last_with k ".pak" ps; ucas := last_with k ".ucas" ps;
     utoc := last_with k ".utoc" ps |}.

Definition has_member (ps : list string) (k e : string) : bool :=
  existsb (fun p => String.eqb (base_key p) k && String.eqb (ext_of p) e) ps.

Definition has_all_members (ps : list string) (k : string) : bool :=
  forallb (has_member ps k) PAK_EXTENSIONS.

Definition member_of (ps : list string) (k e : string) (o : option string) : Prop :=
  exists p, o = Some p /\ In p ps /\ base_key p = k /\ ext_of p = e.

Definition unit_for (ps : list string) (k : string) (u : pak_set) : Prop :=
  member_of ps k ".pak" (pak u) /\ member_of ps k ".ucas" (ucas u)
  /\ member_of ps k ".utoc" (utoc u).

(** The slot written for one candidate. *)
Definition slot_update (p : string) (u : pak_set) : pak_set :=
  if String.eqb (ext_of p) ".pak" then set_pak p u
  else if String.eqb (ext_of p) ".ucas" then set_ucas p u
  else if String.eqb (ext_of p) ".utoc" then set_utoc p u
  else u.

(** One candidate's effect on [found_bases]. *)
Definition pak_add (d : dict) (p : string) : dict :=
  let bk := base_key p in
  dict_modify bk (slot_update p) (if dict_mem bk d then d else d ++ [(bk, empty_set)]).

(** The folder name a member adds to [top_level_dirs], if any. *)
Definition dir_of (m : member) : option string :=
  match path_parts_of (fst m) with
  | [] => None
  | seg :: rest =>
      if ignored seg then None
      else match rest with
           | [] => if snd m then Some seg else None
           | _ :: _ => Some seg
           end
  end.

(** Whether a member sets [has_relevant_files_at_root]. *)
Definition root_relevant (m : member) : bool :=
  match path_parts_of (fst m) with
  | [] => false
  | seg :: rest =>
      if ignored seg then false
      else match rest with
           | [] => negb (snd m) && ends_with_any RELEVANT_EXTENSIONS (lower seg)
           | _ :: _ => false
           end
  end.

(** Whether a string holds a ["\n"] or a ["\r"]. *)
Fixpoint has_line_break (s : string) : bool :=
  match s with
  | EmptyString => false
  | String c s' => Ascii.eqb c "010"%char || Ascii.eqb c "013"%char || has_line_break s'
  end.

(** An entry the plugins file can hold on a line of its own. *)
Definition line_ok (p : string) : Prop :=
  p <> "" /\ strip p = p /\ starts_with "#" p = false /\ has_line_break p = false.

(** The test of the separation loop: [plugin.lower() in default_plugins_lower]. *)
Definition is_default (plugin : string) : bool := mem (lower plugin) default_plugins_lower.


(** No carriage return in the text. *)
Fixpoint no_cr (s : string) : bool :=
  match s with
  | EmptyString => true
  | String c s' => negb (Ascii.eqb c "013"%char) && no_cr s'
  end.

End Views.

Import Views.

(** Concrete worlds for the evaluations below. *)
Module Fixtures.

(** Both optional modules imported; the zip library rejects the file;
    after an extraction only [/tmp/x/a.esp] exists. *)
Definition full_env : env := {|
  RAR_SUPPORT := true; SEVENZIP_SUPPORT := true; rarfile_has_UnrarNotFound := true;
  zip_infolist := fun _ => Err (BadZipFile "File is not a zip file");
  rar_infolist := fun _ => Ok []; sz_list := fun _ => Ok [];
  mkdir_ok := fun _ => true;
  zip_extract := fun _ _ _ => None; rar_extract := fun _ _ _ => None;
  sz_extract := fun _ _ _ => None;
  exists_after := fun p => String.eqb p "/tmp/x/a.esp" |}.

(** The same world where [import rarfile] failed. *)
Definition no_rarfile_env : env := {|
  RAR_SUPPORT := false; SEVENZIP_SUPPORT := true; rarfile_has_UnrarNotFound := false;
  zip_infolist := fun _ => Err (BadZipFile "File is not a zip file");
  rar_infolist := fun _ => Ok []; sz_list := fun _ => Ok [];
  mkdir_ok := fun _ => true;
  zip_extract := fun _ _ _ => None; rar_extract := fun _ _ _ => None;
  sz_extract := fun _ _ _ => None;
  exists_after := fun _ => false |}.

(** [plugins.txt] holding the base game's master and one mod, readable
    and writable, with ["\n"] line endings. *)
Definition plugins_world0 : plugins_world := {|
  pt_content := Some ("Oblivion.esm" +s+ NL +s+ "# comment" +s+ NL +s+ "Old.esp" +s+ NL);
  pt_readable := true; pt_writable := true; pt_linesep := NL |}.

(** The ESP data folder [/data] holding [Old.esp]; deleting succeeds. *)
Definition esp_files0 : files := {|
  fs_exists := fun s => String.eqb s "/data/Old.esp";
  fs_unlink := fun _ => None |}.

(** The Pak mods folder [/paks] holding [A.pak] and [A.ucas]; deleting
    succeeds. *)
Definition pak_files0 : files := {|
  fs_exists := fun s => String.eqb s "/paks/A.pak" || String.eqb s "/paks/A.ucas";
  fs_unlink := fun _ => None |}.

(** Both optional modules imported; every library lists the archive as a
    [Mod] folder holding one Pak set, extracts without error, and every
    path exists afterwards. *)
Definition pak_env : env := {|
  RAR_SUPPORT := true; SEVENZIP_SUPPORT := true; rarfile_has_UnrarNotFound := true;
  zip_infolist := fun _ => Ok [("Mod/A.pak", false); ("Mod/A.ucas", false); ("Mod/A.utoc", false)];
  rar_infolist := fun _ => Ok [("Mod/A.pak", Some false)];
  sz_list := fun _ => Ok [("Mod/A.pak", false)];
  mkdir_ok := fun _ => true;
  zip_extract := fun _ _ _ => None;
  rar_extract := fun _ _ _ => None;
  sz_extract := fun _ _ _ => None;
  exists_after := fun _ => true |}.

(** Both optional modules imported; every library lists the archive as a
    [Mod] folder holding [New.esp], extracts without error, and every
    path exists afterwards. *)
Definition esp_env : env := {|
  RAR_SUPPORT := true; SEVENZIP_SUPPORT := true; rarfile_has_UnrarNotFound := true;
  zip_infolist := fun _ => Ok [("Mod/", true); ("Mod/New.esp", false)];
  rar_infolist := fun _ => Ok [];
  sz_list := fun _ => Ok [];
  mkdir_ok := fun _ => true;
  zip_extract := fun _ _ _ => None;
  rar_extract := fun _ _ _ => None;
  sz_extract := fun _ _ _ => None;
  exists_after := fun _ => true |}.

(** The ESP data folder [/data], empty, where copying succeeds; the
    temporary directory is [/tmp/t]. *)
Definition esp_target0 : esp_target := {|
  esp_data := parse_path "/data"; esp_dir_ok := true; dest_exists := fun _ => false;
  copy2 := fun _ _ => None; mkdtemp := Some "/tmp/t" |}.

End Fixtures.

Import Fixtures.

(* ================================================================== *)
(** ** Evaluations on small inputs *)

Example detect_ex1 :
  detect_single_folder_prefix [("ModName/Plugin.esp", false)] = Some "ModName/".
Proof. vm_compute. reflexivity. Qed.

Example base_key_ex : base_key "Dir/Content.UCAS" = "dir/content".
Proof. vm_compute. reflexivity. Qed.

Example pak_ex :
  pak_sets_of_members [("content.pak", false); ("content.ucas", false);
                       ("content.utoc", false); ("Content.UCAS", false)]
  = [{| pak := Some "content.pak"; ucas := Some "Content.UCAS"; utoc := Some "content.utoc" |}].
Proof. vm_compute. reflexivity. Qed.

Example lo_ex :
  process_load_order (Some ["Oblivion.esm"; "a.esp"; "b.esp"; "c.esp"])
    [Some "x"; Some "1 1 2"; Some "3, 1, 2"; Some "Y"]
  = Some ["Oblivion.esm"; "c.esp"; "a.esp"; "b.esp"].
Proof. vm_compute. reflexivity. Qed.

Example rt_ex :
  read_plugins_file (snd (write_plugins_file true (String "013" NL) ["a.esp"; ""; "b c.esp"]))
  = ["a.esp"; "b c.esp"].
Proof. vm_compute. reflexivity. Qed.

(* ================================================================== *)
(** ** Lower-casing commutes with the path operations *)

Module LowerFacts.

Ltac all_chars c := destruct c as [[] [] [] [] [] [] [] []]; vm_compute; reflexivity.

Lemma lower_char_idem c : lower_char (lower_char c) = lower_char c.
Proof. all_chars c. Qed.

Lemma lower_char_slash c : Ascii.eqb "/" (lower_char c) = Ascii.eqb "/" c.
Proof. all_chars c. Qed.

Lemma lower_char_dot c : Ascii.eqb "." (lower_char c) = Ascii.eqb "." c.
Proof. all_chars c. Qed.

Lemma lower_app a b : lower (a +s+ b) = lower a +s+ lower b.
Proof. induction a as [|c a IH]; simpl; [reflexivity | now rewrite IH]. Qed.

Lemma lower_idem s : lower (lower s) = lower s.
Proof. induction s as [|c s IH]; simpl; [reflexivity | now rewrite lower_char_idem, IH]. Qed.

Lemma lower_length s : String.length (lower s) = String.length s.
Proof. induction s as [|c s IH]; simpl; [reflexivity | now rewrite IH]. Qed.

Lemma lower_eqb_empty x : String.eqb (lower x) "" = String.eqb x "".
Proof. destruct x; reflexivity. Qed.

Lemma lower_eqb_dot x : String.eqb (lower x) "." = String.eqb x ".".
Proof.
  destruct x as [|c [|d x]]; simpl; try reflexivity.
  - rewrite (Ascii.eqb_sym (lower_char c)), (Ascii.eqb_sym c), lower_char_dot.
    reflexivity.
  - destruct (Ascii.eqb (lower_char c) "."), (Ascii.eqb c "."); reflexivity.
Qed.

Lemma starts_with_lower pre s :
  all_slash pre = true -> starts_with pre (lower s) = starts_with pre s.
Proof.
  revert s; induction pre as [|c pre IH]; intros s Hp; [reflexivity |].
  simpl in Hp. apply andb_prop in Hp as [Hc Hp].
  apply Ascii.eqb_eq in Hc; subst c.
  destruct s as [|d s]; cbn [starts_with lower]; [reflexivity |].
  rewrite lower_char_slash, IH by exact Hp. reflexivity.
Qed.

Lemma split_on_lower s : split_on "/" (lower s) = map lower (split_on "/" s).
Proof.
  induction s as [|d s IH]; cbn [split_on lower]; [reflexivity |].
  rewrite IH. destruct (split_on "/" s) as [|w ws]; cbn [map]; [reflexivity |].
  rewrite (Ascii.eqb_sym (lower_char d)), (Ascii.eqb_sym d), lower_char_slash.
  destruct (Ascii.eqb "/" d); reflexivity.
Qed.

Lemma filter_parts_lower l :
  List.filter (fun x => negb (String.eqb x "") && negb (String.eqb x ".")) (map lower l)
  = map lower (List.filter (fun x => negb (String.eqb x "") && negb (String.eqb x ".")) l).
Proof.
  induction l as [|x l IH]; simpl; [reflexivity |].
  rewrite lower_eqb_empty, lower_eqb_dot, IH.
  destruct (negb (String.eqb x "") && negb (String.eqb x ".")); reflexivity.
Qed.

Lemma parse_path_lower s : parse_path (lower s) = lower_path (parse_path s).
Proof.
  unfold parse_path, lower_path; cbn [pp_root pp_parts].
  rewrite !starts_with_lower by reflexivity.
  rewrite split_on_lower, filter_parts_lower. f_equal.
  destruct (starts_with "//" s && negb (starts_with "///" s)); [reflexivity |].
  destruct (starts_with "/" s); reflexivity.
Qed.

Lemma last_lower l : List.last (map lower l) "" = lower (List.last l "").
Proof.
  induction l as [|x l IH]; [reflexivity |].
  destruct l as [|y l]; [reflexivity |]. exact IH.
Qed.

Lemma rfind_lower s : rfind "." (lower s) = rfind "." s.
Proof.
  induction s as [|d s IH]; cbn [rfind lower]; [reflexivity |].
  rewrite IH, lower_char_dot. reflexivity.
Qed.

Lemma substring_lower n m s : substring n m (lower s) = lower (substring n m s).
Proof.
  revert n m; induction s as [|c s IH]; intros n m.
  - destruct n, m; reflexivity.
  - destruct n as [|n]; [destruct m as [|m] |]; simpl; [reflexivity | | ].
    + now rewrite IH.
    + apply IH.
Qed.

Lemma split_ext_lower nm :
  split_ext (lower nm) = (lower (fst (split_ext nm)), lower (snd (split_ext nm))).
Proof.
  unfold split_ext. rewrite rfind_lower, lower_length.
  destruct (rfind "." nm) as [i|]; [| reflexivity].
  destruct ((0 <? i)%nat && (i <? String.length nm - 1)%nat); simpl;
    [now rewrite !substring_lower | reflexivity].
Qed.

Lemma stem_lower p : stem (lower_path p) = lower (stem p).
Proof.
  unfold stem, name, lower_path; simpl.
  rewrite last_lower, split_ext_lower. reflexivity.
Qed.

Lemma removelast_lower l : removelast (map lower l) = map lower (removelast l).
Proof.
  induction l as [|x l IH]; [reflexivity |].
  destruct l as [|y l]; [reflexivity |].
  change (lower x :: removelast (map lower (y :: l)) = map lower (x :: removelast (y :: l))).
  now rewrite IH.
Qed.

Lemma parent_lower p : parent (lower_path p) = lower_path (parent p).
Proof.
  unfold parent, lower_path; simpl.
  destruct (pp_parts p) as [|x l] eqn:E; simpl; [now rewrite E |].
  f_equal. change (removelast (map lower (x :: l)) = map lower (removelast (x :: l))).
  apply removelast_lower.
Qed.

Lemma div_lower p s : div (lower_path p) (lower s) = lower_path (div p s).
Proof.
  unfold div; cbv zeta. rewrite parse_path_lower.
  change (pp_root (lower_path (parse_path s))) with (lower (pp_root (parse_path s))).
  rewrite lower_eqb_empty.
  destruct (String.eqb (pp_root (parse_path s)) ""); [| reflexivity].
  unfold lower_path; cbn [pp_root pp_parts]. now rewrite map_app.
Qed.

Lemma join_lower l : join "/" (map lower l) = lower (join "/" l).
Proof.
  induction l as [|x l IH]; [reflexivity |].
  destruct l as [|y l]; [reflexivity |].
  change (lower x +s+ "/" +s+ join "/" (map lower (y :: l))
          = lower (x +s+ "/" +s+ join "/" (y :: l))).
  rewrite IH, !lower_app. reflexivity.
Qed.

Lemma as_posix_lower p : as_posix (lower_path p) = lower (as_posix p).
Proof.
  unfold as_posix, lower_path; simpl.
  destruct (pp_parts p) as [|x l] eqn:E; simpl.
  - rewrite lower_eqb_empty. destruct (String.eqb (pp_root p) ""); reflexivity.
  - rewrite lower_app. f_equal.
    change (join "/" (map lower (x :: l)) = lower (join "/" (x :: l))).
    apply join_lower.
Qed.

Lemma base_key_lower s : base_key (lower s) = base_key s.
Proof.
  unfold base_key.
  rewrite parse_path_lower, parent_lower, stem_lower, div_lower, as_posix_lower.
  apply lower_idem.
Qed.

End LowerFacts.

(* ================================================================== *)
(** ** Facts about the grouping loop of [find_pak_sets_in_archive] *)

Module PakFacts.

Lemma mem_In x xs : mem x xs = true <-> In x xs.
Proof.
  unfold mem. rewrite existsb_exists. split.
  - intros [y [Hy Heq]]. apply String.eqb_eq in Heq. now subst.
  - intros H. exists x. split; [exact H | apply String.eqb_refl].
Qed.

Lemma dict_modify_id k d : dict_modify k (fun u => u) d = d.
Proof.
  unfold dict_modify. induction d as [|[k' v] d IH]; simpl; [reflexivity |].
  rewrite IH. destruct (String.eqb k' k); reflexivity.
Qed.

Lemma pak_step_eq prefix d m :
  pak_step prefix d m = if relevant prefix m then pak_add d (fst m) else d.
Proof.
  destruct m as [p b]. unfold pak_step, relevant, pak_add, slot_update; cbn [fst snd].
  destruct b; [reflexivity |]. cbn [negb andb].
  destruct (skip_by_prefix prefix p); [reflexivity |]. cbn [negb andb].
  destruct (ends_with_any PAK_EXTENSIONS (lower p)); [| reflexivity].
  destruct (String.eqb (ext_of p) ".pak"); [reflexivity |].
  destruct (String.eqb (ext_of p) ".ucas"); [reflexivity |].
  destruct (String.eqb (ext_of p) ".utoc"); [reflexivity |].
  now rewrite dict_modify_id.
Qed.

Lemma fold_pak_step prefix members d :
  fold_left (pak_step prefix) members d
  = fold_left pak_add (map fst (List.filter (relevant prefix) members)) d.
Proof.
  revert d; induction members as [|m members IH]; intros d; [reflexivity |].
  cbn [fold_left List.filter]. rewrite pak_step_eq.
  destruct (relevant prefix m); cbn [map fold_left]; apply IH.
Qed.

Lemma first_seen_go_In ks acc k :
  In k (fold_left (fun acc k => if mem k acc then acc else acc ++ [k]) ks acc)
  <-> In k acc \/ In k ks.
Proof.
  revert acc; induction ks as [|k' ks IH]; intros acc; cbn [fold_left].
  - simpl. tauto.
  - rewrite IH. destruct (mem k' acc) eqn:E.
    + apply mem_In in E. simpl. split; [tauto |].
      intros [H | [H | H]]; auto. subst; auto.
    + rewrite in_app_iff. simpl. tauto.
Qed.

Lemma first_seen_In ks k : In k (first_seen ks) <-> In k ks.
Proof. unfold first_seen. rewrite first_seen_go_In. simpl. tauto. Qed.

Lemma first_seen_NoDup ks : NoDup (first_seen ks).
Proof.
  unfold first_seen.
  assert (Hgen : forall acc, NoDup acc ->
    NoDup (fold_left (fun acc k => if mem k acc then acc else acc ++ [k]) ks acc)).
  { induction ks as [|k ks IH]; intros acc Hacc; cbn [fold_left]; [exact Hacc |].
    apply IH. destruct (mem k acc) eqn:E; [exact Hacc |].
    apply NoDup_app. split; [exact Hacc |]. split; [| apply NoDup_singleton].
    intros x Hx Hx'. apply list_elem_of_singleton in Hx'. subst x.
    apply list_elem_of_In in Hx. apply mem_In in Hx. congruence. }
  apply Hgen. constructor.
Qed.

Lemma first_seen_snoc ks k :
  first_seen (ks ++ [k])
  = if mem k (first_seen ks) then first_seen ks else first_seen ks ++ [k].
Proof. unfold first_seen. now rewrite fold_left_app. Qed.

Lemma last_with_snoc k e ps p :
  last_with k e (ps ++ [p])
  = if String.eqb (base_key p) k && String.eqb (ext_of p) e then Some p else last_with k e ps.
Proof. unfold last_with. now rewrite fold_left_app. Qed.

Lemma last_with_absent k e ps :
  ~ In k (map base_key ps) -> last_with k e ps = None.
Proof.
  induction ps as [|p ps IH] using rev_ind; intros Hk; [reflexivity |].
  rewrite last_with_snoc, map_app in *. rewrite in_app_iff in Hk.
  destruct (String.eqb (base_key p) k) eqn:E.
  - apply String.eqb_eq in E. exfalso. apply Hk. right. now left.
  - cbn [andb]. apply IH. tauto.
Qed.

Lemma last_with_Some k e ps a :
  last_with k e ps = Some a -> In a ps /\ base_key a = k /\ ext_of a = e.
Proof.
  induction ps as [|p ps IH] using rev_ind; [discriminate |].
  rewrite last_with_snoc, in_app_iff.
  destruct (String.eqb (base_key p) k && String.eqb (ext_of p) e) eqn:E.
  - intros [= <-]. apply andb_prop in E as [E1 E2].
    apply String.eqb_eq in E1, E2. split; [right; now left | tauto].
  - intros H. destruct (IH H) as [H1 H2]. tauto.
Qed.

Lemma unit_of_snoc ps p k :
  unit_of (ps ++ [p]) k
  = if String.eqb (base_key p) k then slot_update p (unit_of ps k) else unit_of ps k.
Proof.
  unfold unit_of. rewrite !last_with_snoc.
  destruct (String.eqb (base_key p) k); cbn [andb]; [| reflexivity].
  unfold slot_update.
  destruct (String.eqb (ext_of p) ".pak") eqn:E1.
  { apply String.eqb_eq in E1. rewrite E1. reflexivity. }
  destruct (String.eqb (ext_of p) ".ucas") eqn:E2.
  { apply String.eqb_eq in E2. rewrite E2. reflexivity. }
  destruct (String.eqb (ext_of p) ".utoc") eqn:E3.
  { reflexivity. }
  reflexivity.
Qed.

(** The dict after the loop: one entry per key in first-seen order,
    holding the last candidate of each suffix. *)
Lemma fold_pak_add ps :
  fold_left pak_add ps [] = map (fun k => (k, unit_of ps k)) (first_seen (map base_key ps)).
Proof.
  induction ps as [|p ps IH] using rev_ind; [reflexivity |].
  rewrite fold_left_app. cbn [fold_left]. rewrite IH, map_app. cbn [map].
  rewrite first_seen_snoc. unfold pak_add.
  assert (Hmem : dict_mem (base_key p) (map (fun k => (k, unit_of ps k)) (first_seen (map base_key ps)))
                 = mem (base_key p) (first_seen (map base_key ps))).
  { unfold dict_mem. rewrite map_map. cbn [fst]. now rewrite map_id. }
  rewrite Hmem.
  assert (Hbody : forall l, dict_modify (base_key p) (slot_update p) (map (fun k => (k, unit_of ps k)) l)
                   = map (fun k => (k, unit_of (ps ++ [p]) k)) l).
  { intros l. unfold dict_modify. rewrite map_map. apply map_ext. intros k. cbn [fst snd].
    rewrite unit_of_snoc, (String.eqb_sym (base_key p) k).
    destruct (String.eqb k (base_key p)); reflexivity. }
  destruct (mem (base_key p) (first_seen (map base_key ps))) eqn:E; [apply Hbody |].
  assert (Happ : forall f l1 l2, dict_modify (base_key p) f (l1 ++ l2)
                                 = dict_modify (base_key p) f l1 ++ dict_modify (base_key p) f l2)
    by (intros; apply map_app).
  rewrite Happ, Hbody, map_app. f_equal.
  unfold dict_modify. cbn [map fst snd]. rewrite String.eqb_refl.
  do 2 f_equal. rewrite unit_of_snoc, String.eqb_refl. f_equal.
  assert (Hn : ~ In (base_key p) (map base_key ps)).
  { intros Hin. apply first_seen_In, mem_In in Hin. congruence. }
  unfold unit_of. rewrite !last_with_absent by exact Hn. reflexivity.
Qed.

Lemma fold_collect {A B} (P : A -> bool) (f : A -> B) l acc :
  fold_left (fun acc x => if P x then acc ++ [f x] else acc) l acc
  = acc ++ map f (List.filter P l).
Proof.
  revert acc; induction l as [|x l IH]; intros acc; cbn [fold_left List.filter].
  - now rewrite app_nil_r.
  - rewrite IH. destruct (P x); cbn [map]; [now rewrite <- app_assoc | reflexivity].
Qed.

Lemma filter_pairs (u : string -> pak_set) (l : list string) :
  List.filter (fun kv => complete (snd kv)) (map (fun k => (k, u k)) l)
  = map (fun k => (k, u k)) (List.filter (fun k => complete (u k)) l).
Proof.
  induction l as [|k l IH]; cbn [map List.filter]; [reflexivity |].
  rewrite IH. cbn [snd]. destruct (complete (u k)); reflexivity.
Qed.

Lemma pak_sets_eq members :
  pak_sets_of_members members
  = map (unit_of (candidates members))
      (List.filter (fun k => complete (unit_of (candidates members) k))
         (first_seen (map base_key (candidates members)))).
Proof.
  unfold pak_sets_of_members, found_bases_of.
  rewrite (fold_collect (fun kv => complete (snd kv)) snd), fold_pak_step.
  fold (candidates members). rewrite fold_pak_add, filter_pairs, map_map. reflexivity.
Qed.

Lemma candidate_nonempty members p : In p (candidates members) -> p <> "".
Proof.
  unfold candidates. rewrite in_map_iff. intros [[p' b] [Hp Hin]]. cbn [fst] in Hp. subst p'.
  apply filter_In in Hin as [_ Hr]. unfold relevant in Hr. cbn [fst] in Hr.
  intros ->. apply andb_prop in Hr as [_ Hr]. discriminate Hr.
Qed.

Lemma truthy_last_with k e ps :
  (forall p, In p ps -> p <> "") ->
  truthy (last_with k e ps) = has_member ps k e.
Proof.
  induction ps as [|p ps IH] using rev_ind; intros Hne; [reflexivity |].
  unfold has_member in *. rewrite last_with_snoc, existsb_app. cbn [existsb].
  rewrite orb_false_r.
  destruct (String.eqb (base_key p) k && String.eqb (ext_of p) e).
  - cbn [truthy]. rewrite orb_true_r.
    assert (Hp : p <> "") by (apply Hne; apply in_app_iff; right; now left).
    destruct (String.eqb p "") eqn:E; [apply String.eqb_eq in E; contradiction | reflexivity].
  - rewrite orb_false_r. apply IH. intros q Hq. apply Hne, in_app_iff. now left.
Qed.

Lemma complete_unit_of members k :
  complete (unit_of (candidates members) k) = has_all_members (candidates members) k.
Proof.
  unfold complete, has_all_members, unit_of. cbn [pak ucas utoc forallb PAK_EXTENSIONS].
  rewrite !truthy_last_with by apply candidate_nonempty.
  now rewrite andb_true_r, andb_assoc.
Qed.

Lemma last_with_found ps k e :
  has_member ps k e = true -> exists p, last_with k e ps = Some p.
Proof.
  unfold has_member.
  induction ps as [|r ps IH] using rev_ind; [discriminate |].
  rewrite existsb_app, last_with_snoc. cbn [existsb]. rewrite orb_false_r.
  destruct (String.eqb (base_key r) k && String.eqb (ext_of r) e); [eauto |].
  rewrite orb_false_r. exact IH.
Qed.

Lemma member_of_last_with ps k e :
  has_member ps k e = true -> member_of ps k e (last_with k e ps).
Proof.
  intros H. destruct (last_with_found ps k e H) as [p Hp].
  exists p. split; [exact Hp | exact (last_with_Some _ _ _ _ Hp)].
Qed.

Lemma unit_for_unit_of ps k :
  has_all_members ps k = true -> unit_for ps k (unit_of ps k).
Proof.
  unfold has_all_members, unit_for, unit_of. cbn [pak ucas utoc forallb PAK_EXTENSIONS].
  rewrite andb_true_r. intros H.
  apply andb_prop in H as [H1 H]. apply andb_prop in H as [H2 H3].
  split; [| split]; apply member_of_last_with; assumption.
Qed.

End PakFacts.

Import LowerFacts PakFacts.

(* ================================================================== *)
(** ** Claims about the content classifier *)

(** C1. After the optional prefix filter, [find_pak_sets_in_archive]
    yields exactly one unit per grouping key (lower-cased parent plus
    stem) for which a [.pak], a [.ucas] and a [.utoc] member all occur,
    in first-seen key order; each slot of a unit holds a member with that
    key and suffix; keys missing a member produce nothing; paths that
    differ only in case have the same key, so no key yields two units. *)
Theorem find_pak_sets_complete_keys (members : list member) :
  let ps := candidates members in
  let keys := List.filter (has_all_members ps) (first_seen (map base_key ps)) in
  NoDup keys /\
  (forall k, In k keys <-> In k (map base_key ps) /\ has_all_members ps k = true) /\
  Forall2 (unit_for ps) keys (pak_sets_of_members members) /\
  (forall p q, lower p = lower q -> base_key p = base_key q).
Proof.
  intros ps keys. split; [| split; [| split]].
  - unfold keys. apply NoDup_ListNoDup, List.NoDup_filter, NoDup_ListNoDup, first_seen_NoDup.
  - intros k. unfold keys. rewrite filter_In, first_seen_In. reflexivity.
  - rewrite pak_sets_eq. fold ps.
    rewrite (filter_ext (fun k => complete (unit_of ps k)) (has_all_members ps))
      by (intros k; apply complete_unit_of).
    fold keys.
    assert (Hall : forall k, In k keys -> has_all_members ps k = true)
      by (intros k Hk; apply filter_In in Hk; tauto).
    clearbody keys. induction keys as [|k keys IH]; cbn [map]; constructor.
    + apply unit_for_unit_of, Hall. now left.
    + apply IH. intros k' Hk'. apply Hall. now right.
  - intros p q H. rewrite <- (base_key_lower p), <- (base_key_lower q), H. reflexivity.
Qed.

(* ================================================================== *)
(** ** Facts about the prefix detection *)

Module DetectFacts.

Lemma detect_step_eq (S : gset string) b m :
  detect_step (S, b) m
  = (match dir_of m with Some x => {[x]} ∪ S | None => S end, b || root_relevant m).
Proof.
  destruct m as [p d]. unfold detect_step, dir_of, root_relevant; cbn [fst snd].
  destruct (path_parts_of p) as [|seg rest]; [now rewrite orb_false_r |].
  destruct (ignored seg); [now rewrite orb_false_r |].
  destruct rest as [|x rest]; [| now rewrite orb_false_r].
  destruct d; cbn [negb andb]; [now rewrite orb_false_r |].
  destruct (ends_with_any RELEVANT_EXTENSIONS (lower seg));
    [now rewrite orb_true_r | now rewrite orb_false_r].
Qed.

Lemma fold_detect l (S : gset string) b :
  fold_left detect_step l (S, b)
  = (S ∪ list_to_set (omap dir_of l), b || existsb root_relevant l).
Proof.
  revert S b; induction l as [|m l IH]; intros S b; cbn [fold_left existsb].
  - rewrite orb_false_r. f_equal. set_solver.
  - rewrite detect_step_eq, IH. cbn [omap list_omap].
    rewrite orb_assoc. f_equal.
    destruct (dir_of m); cbn [list_to_set]; set_solver.
Qed.

Lemma detect_eq members :
  detect_single_folder_prefix members =
  match List.filter (fun d => negb (ignored d))
          (elements (list_to_set (omap dir_of members) : gset string)) with
  | [single_folder_name] =>
      if negb (existsb root_relevant members) && forallb (inside single_folder_name) members
      then Some (single_folder_name +s+ "/") else None
  | _ => None
  end.
Proof.
  unfold detect_single_folder_prefix. rewrite fold_detect. cbn [orb].
  now rewrite (union_empty_l_L (list_to_set (omap dir_of members) : gset string)).
Qed.

Lemma existsb_perm {A} (f : A -> bool) l l' :
  Permutation l l' -> existsb f l = existsb f l'.
Proof.
  intros P. apply Bool.eq_true_iff_eq. rewrite !existsb_exists.
  split; intros [x [Hx Hf]]; exists x; split; try exact Hf;
    [exact (Permutation_in _ P Hx) | exact (Permutation_in _ (Permutation_sym P) Hx)].
Qed.

Lemma forallb_perm {A} (f : A -> bool) l l' :
  Permutation l l' -> forallb f l = forallb f l'.
Proof.
  intros P. apply Bool.eq_true_iff_eq. rewrite !forallb_forall.
  split; intros H x Hx; apply H;
    [exact (Permutation_in _ (Permutation_sym P) Hx) | exact (Permutation_in _ P Hx)].
Qed.

Lemma detect_perm m m' :
  Permutation m m' -> detect_single_folder_prefix m = detect_single_folder_prefix m'.
Proof.
  intros P. rewrite !detect_eq.
  assert (HS : (list_to_set (omap dir_of m) : gset string) = list_to_set (omap dir_of m')).
  { apply leibniz_equiv. intros x. rewrite !elem_of_list_to_set, !list_elem_of_omap.
    split; intros [y [Hy Hd]]; exists y; split; try exact Hd;
      apply list_elem_of_In; apply list_elem_of_In in Hy;
      [exact (Permutation_in _ P Hy) | exact (Permutation_in _ (Permutation_sym P) Hy)]. }
  rewrite HS, (existsb_perm _ _ _ P).
  destruct (List.filter _ _) as [|x [|y l]]; try reflexivity.
  now rewrite (forallb_perm _ _ _ P).
Qed.

Lemma append_slash_nonempty s : s +s+ "/" <> "".
Proof. destruct s; discriminate. Qed.

Lemma detect_nonempty members pre :
  detect_single_folder_prefix members = Some pre -> pre <> "".
Proof.
  rewrite detect_eq. destruct (List.filter _ _) as [|x [|y l]]; try discriminate.
  destruct (_ && _); [| discriminate]. intros [= <-]. apply append_slash_nonempty.
Qed.

Lemma ignored_not_relevant seg :
  ignored seg = true -> ends_with_any RELEVANT_EXTENSIONS (lower seg) = false.
Proof.
  unfold ignored, mem. intros H. apply existsb_exists in H as [x [Hx Heq]].
  apply String.eqb_eq in Heq. rewrite Heq.
  simpl in Hx. repeat (destruct Hx as [<- | Hx]; [reflexivity |]). destruct Hx.
Qed.

Lemma split_on_nonempty c s : split_on c s <> [].
Proof.
  induction s as [|d s IH]; cbn [split_on]; [discriminate |].
  destruct (split_on c s); [discriminate |]. destruct (Ascii.eqb d c); discriminate.
Qed.

Lemma path_parts_nonempty p : path_parts_of p <> [].
Proof. apply split_on_nonempty. Qed.

Lemma dir_of_Some m x :
  dir_of m = Some x -> first_segment (fst m) = x /\ ignored x = false.
Proof.
  unfold dir_of, first_segment. destruct (path_parts_of (fst m)) as [|seg rest]; [discriminate |].
  destruct (ignored seg) eqn:Hi; [discriminate |].
  destruct rest; [destruct (snd m); [| discriminate] |]; intros [= <-]; tauto.
Qed.

End DetectFacts.

Import DetectFacts.

(** C2 (as stated). A lone top-level file is a first segment shared by
    every entry, with no relevant root file, yet no prefix is detected:
    only folders count as wrapping folders. *)
Lemma detect_prefix_lone_file_counterexample :
  let members := [("readme.txt", false)] in
  (forall m, In m members -> ignored (first_segment (fst m)) = false ->
             first_segment (fst m) = "readme.txt") /\
  (forall m seg, In m members -> snd m = false -> path_parts_of (fst m) = [seg] ->
                 ends_with_any RELEVANT_EXTENSIONS (lower seg) = false) /\
  detect_single_folder_prefix members = None.
Proof.
  intros members. split; [| split].
  - intros m [<- | []] _. reflexivity.
  - intros m seg [<- | []] _ H. vm_compute in H. injection H as <-. reflexivity.
  - vm_compute. reflexivity.
Qed.

(** C2 (amended). If every non-ignorable entry's first segment is [s],
    [s] is not ignorable, no depth-1 file has a relevant extension, and
    [s] is a folder (some entry with first segment [s] is a directory or
    lies below it), the detected prefix is [s ++ "/"]. *)
Theorem detect_prefix_single_folder (members : list member) (s : string) :
  ignored s = false ->
  (forall m, In m members -> ignored (first_segment (fst m)) = false ->
             first_segment (fst m) = s) ->
  (forall m seg, In m members -> snd m = false -> path_parts_of (fst m) = [seg] ->
                 ends_with_any RELEVANT_EXTENSIONS (lower seg) = false) ->
  (exists m, In m members /\ first_segment (fst m) = s /\
             (snd m = true \/ 2 <= length (path_parts_of (fst m)))%nat) ->
  detect_single_folder_prefix members = Some (s +s+ "/").
Proof.
  intros Hs Hfirst Hroot [m0 [Hm0 [Hseg0 Hdir0]]].
  rewrite detect_eq.
  assert (HS : (list_to_set (omap dir_of members) : gset string) = {[s]}).
  { apply leibniz_equiv. intros x. rewrite elem_of_list_to_set, list_elem_of_omap, elem_of_singleton.
    split.
    - intros [m [Hm Hd]]. apply dir_of_Some in Hd as [Hf Hi]. subst x.
      apply Hfirst; [now apply list_elem_of_In | exact Hi].
    - intros ->. exists m0. split; [now apply list_elem_of_In |].
      unfold dir_of. unfold first_segment in Hseg0.
      destruct (path_parts_of (fst m0)) as [|seg rest] eqn:Hp;
        [now apply path_parts_nonempty in Hp |]. subst seg.
      rewrite Hs. destruct rest as [|y rest]; [| reflexivity].
      destruct Hdir0 as [-> | Hlen]; [reflexivity | cbn in Hlen; lia]. }
  rewrite HS, elements_singleton. cbn [List.filter]. rewrite Hs. cbn [negb].
  assert (Hrel : existsb root_relevant members = false).
  { apply Bool.not_true_iff_false. intros H. apply existsb_exists in H as [m [Hm Hr]].
    unfold root_relevant in Hr. destruct (path_parts_of (fst m)) as [|seg rest] eqn:Hp; [discriminate |].
    destruct (ignored seg); [discriminate |]. destruct rest; [| discriminate].
    apply andb_prop in Hr as [Hd He]. apply negb_true_iff in Hd.
    rewrite (Hroot m seg Hm Hd Hp) in He. discriminate. }
  rewrite Hrel. cbn [negb andb].
  assert (Hin : forallb (inside s) members = true).
  { apply forallb_forall. intros m Hm. unfold inside.
    destruct (String.eqb (strip_char "/" (fst m)) "" || ignored (first_segment (fst m))) eqn:E;
      [reflexivity |].
    apply orb_false_iff in E as [_ E]. rewrite (Hfirst m Hm E). apply String.eqb_refl. }
  now rewrite Hin.
Qed.

Lemma detect_prefix_single_folder_witness :
  detect_single_folder_prefix [("ModName/", true); ("ModName/Plugin.esp", false)]
  = Some ("ModName" +s+ "/").
Proof.
  apply detect_prefix_single_folder.
  - vm_compute. reflexivity.
  - intros m [<- | [<- | []]] _; vm_compute; reflexivity.
  - intros m seg [<- | [<- | []]] Hd Hp; vm_compute in Hd, Hp; discriminate.
  - exists ("ModName/", true). split; [now left | split; [vm_compute; reflexivity | now left]].
Defined.

(** C3. A depth-1 file whose lower-cased name ends in a relevant
    extension disqualifies prefix detection. *)
Theorem detect_prefix_root_relevant_file (members : list member) (path_str seg : string) :
  In (path_str, false) members ->
  path_parts_of path_str = [seg] ->
  ends_with_any RELEVANT_EXTENSIONS (lower seg) = true ->
  detect_single_folder_prefix members = None.
Proof.
  intros Hin Hp He. rewrite detect_eq.
  assert (Hrel : existsb root_relevant members = true).
  { apply existsb_exists. exists (path_str, false). split; [exact Hin |].
    unfold root_relevant. cbn [fst snd]. rewrite Hp.
    destruct (ignored seg) eqn:Hi.
    - rewrite (ignored_not_relevant seg Hi) in He. discriminate.
    - exact He. }
  rewrite Hrel. cbn [negb andb].
  destruct (List.filter _ _) as [|x [|y l]]; reflexivity.
Qed.

Lemma detect_prefix_root_relevant_file_witness :
  detect_single_folder_prefix [("ModName/", true); ("ModName/a.esp", false); ("b.pak", false)]
  = None.
Proof.
  apply (detect_prefix_root_relevant_file _ "b.pak" "b.pak").
  - right. right. now left.
  - vm_compute. reflexivity.
  - vm_compute. reflexivity.
Defined.

Lemma skip_by_detect members path_str :
  skip_by_prefix (detect_single_folder_prefix members) path_str
  = match detect_single_folder_prefix members with
    | Some pre => negb (starts_with pre path_str)
    | None => false
    end.
Proof.
  destruct (detect_single_folder_prefix members) as [pre|] eqn:Hd; [| reflexivity].
  cbn [skip_by_prefix]. apply detect_nonempty in Hd.
  destruct (String.eqb pre "") eqn:E; [apply String.eqb_eq in E; contradiction | reflexivity].
Qed.

(** C4. [find_esps_in_archive] returns, in archive order and unchanged,
    the paths of the non-directory entries whose lower-cased path ends in
    [.esp], restricted to those starting with the detected prefix when
    there is one; on a member list read from an archive it returns exactly
    that, and the archive holding only [ModName/Plugin.esp] gives
    [["ModName/Plugin.esp"]]. *)
Theorem find_esps_filter (members : list member) :
  esps_of_members members
  = map fst (List.filter (fun m => negb (snd m) && ends_with ".esp" (lower (fst m))
                                   && match detect_single_folder_prefix members with
                                      | Some pre => starts_with pre (fst m)
                                      | None => true
                                      end) members) /\
  (forall E archive_path, get_archive_member_list E archive_path = Ok members ->
     find_esps_in_archive E archive_path = Ok (esps_of_members members)) /\
  esps_of_members [("ModName/Plugin.esp", false)] = ["ModName/Plugin.esp"].
Proof.
  split; [| split].
  - unfold esps_of_members.
    set (f := fun esps (m : member) => _).
    assert (Hf : forall acc (l : list member), fold_left f l acc
      = acc ++ map fst (List.filter (fun m => negb (snd m) && ends_with ".esp" (lower (fst m))
                                   && match detect_single_folder_prefix members with
                                      | Some pre => starts_with pre (fst m)
                                      | None => true
                                      end) l)).
    { intros acc l. revert acc. induction l as [|[p d] l IH]; intros acc;
        cbn [fold_left List.filter]; [now rewrite app_nil_r |].
      rewrite IH. unfold f at 1. cbn [fst snd]. rewrite skip_by_detect.
      destruct d; cbn [negb andb]; [reflexivity |].
      destruct (detect_single_folder_prefix members) as [pre|];
        [destruct (starts_with pre p) |]; cbn [negb];
        destruct (ends_with ".esp" (lower p)); cbn [andb map negb];
        first [now rewrite <- app_assoc | reflexivity]. }
    apply Hf.
  - intros E archive_path H. unfold find_esps_in_archive. now rewrite H.
  - vm_compute. reflexivity.
Qed.

(* ================================================================== *)
(** ** Facts about reordering the entries *)

Module PermFacts.

Lemma perm_filter {A} (f : A -> bool) l l' :
  Permutation l l' -> Permutation (List.filter f l) (List.filter f l').
Proof.
  induction 1 as [| x l l' _ IH | x y l | l l' l'' _ IH1 _ IH2]; cbn [List.filter].
  - constructor.
  - destruct (f x); [now constructor | exact IH].
  - destruct (f x), (f y); try constructor; reflexivity.
  - now transitivity (List.filter f l').
Qed.

Lemma candidates_perm m m' :
  Permutation m m' -> Permutation (candidates m) (candidates m').
Proof.
  intros P. unfold candidates. rewrite (detect_perm m m' P).
  apply Permutation_map, perm_filter, P.
Qed.

Lemma has_member_perm ps ps' k e :
  Permutation ps ps' -> has_member ps k e = has_member ps' k e.
Proof. intros P. apply existsb_perm, P. Qed.

Lemma has_all_members_perm ps ps' k :
  Permutation ps ps' -> has_all_members ps k = has_all_members ps' k.
Proof.
  intros P. unfold has_all_members. cbn [forallb PAK_EXTENSIONS].
  now rewrite !(has_member_perm ps ps' k _ P).
Qed.

Lemma first_seen_perm ks ks' :
  Permutation ks ks' -> Permutation (first_seen ks) (first_seen ks').
Proof.
  intros P. apply NoDup_Permutation; [apply first_seen_NoDup | apply first_seen_NoDup |].
  intros k. rewrite !list_elem_of_In, !first_seen_In. split; intros H;
    [exact (Permutation_in _ P H) | exact (Permutation_in _ (Permutation_sym P) H)].
Qed.

Lemma keys_perm ps ps' :
  Permutation ps ps' ->
  Permutation (List.filter (has_all_members ps) (first_seen (map base_key ps)))
              (List.filter (has_all_members ps') (first_seen (map base_key ps'))).
Proof.
  intros P.
  rewrite (filter_ext (has_all_members ps) (has_all_members ps'))
    by (intros k; apply has_all_members_perm, P).
  apply perm_filter, first_seen_perm, Permutation_map, P.
Qed.

Lemma last_with_None_has_member k e ps :
  has_member ps k e = false -> last_with k e ps = None.
Proof.
  intros H. destruct (last_with k e ps) as [a|] eqn:E; [| reflexivity].
  apply last_with_Some in E as [Ha [Hk He]].
  assert (has_member ps k e = true) as H'.
  { apply existsb_exists. exists a. split; [exact Ha |].
    rewrite Hk, He, !String.eqb_refl. reflexivity. }
  congruence.
Qed.

Lemma last_with_unique_perm ps ps' k e :
  Permutation ps ps' ->
  (forall p q, In p ps -> In q ps -> base_key p = base_key q -> ext_of p = ext_of q -> p = q) ->
  last_with k e ps = last_with k e ps'.
Proof.
  intros P U. destruct (has_member ps k e) eqn:H.
  - destruct (last_with_found ps k e H) as [a Ha].
    rewrite (has_member_perm ps ps' k e P) in H.
    destruct (last_with_found ps' k e H) as [b Hb].
    rewrite Ha, Hb. f_equal.
    apply last_with_Some in Ha as [Ha [Hak Hae]], Hb as [Hb [Hbk Hbe]].
    apply U; [exact Ha | exact (Permutation_in _ (Permutation_sym P) Hb) | congruence | congruence].
  - rewrite (last_with_None_has_member _ _ _ H).
    rewrite (has_member_perm ps ps' k e P) in H.
    now rewrite (last_with_None_has_member _ _ _ H).
Qed.

Lemma pak_sets_keys members :
  pak_sets_of_members members
  = map (unit_of (candidates members))
      (List.filter (has_all_members (candidates members))
         (first_seen (map base_key (candidates members)))).
Proof.
  rewrite pak_sets_eq. f_equal. apply filter_ext. intros k. apply complete_unit_of.
Qed.

End PermFacts.

Import PermFacts.

(** C5 (as stated).  Two orders of the same entries whose [.ucas] slot
    is filled by different case variants: the last one wins, so the
    completed units differ, also as sets. *)
Lemma find_pak_sets_order_counterexample :
  let m := [("content.pak", false); ("content.ucas", false);
            ("content.utoc", false); ("Content.UCAS", false)] in
  let m' := [("content.pak", false); ("Content.UCAS", false);
             ("content.utoc", false); ("content.ucas", false)] in
  Permutation m m' /\
  pak_sets_of_members m
    = [{| pak := Some "content.pak"; ucas := Some "Content.UCAS"; utoc := Some "content.utoc" |}] /\
  pak_sets_of_members m'
    = [{| pak := Some "content.pak"; ucas := Some "content.ucas"; utoc := Some "content.utoc" |}] /\
  ~ (forall u, In u (pak_sets_of_members m) <-> In u (pak_sets_of_members m')).
Proof.
  intros m m'.
  assert (Hm : pak_sets_of_members m
    = [{| pak := Some "content.pak"; ucas := Some "Content.UCAS"; utoc := Some "content.utoc" |}])
    by (vm_compute; reflexivity).
  assert (Hm' : pak_sets_of_members m'
    = [{| pak := Some "content.pak"; ucas := Some "content.ucas"; utoc := Some "content.utoc" |}])
    by (vm_compute; reflexivity).
  split; [| split; [exact Hm | split; [exact Hm' |]]].
  - apply perm_skip. exact (Permutation_rev [("content.ucas", false); ("content.utoc", false);
                                               ("Content.UCAS", false)]).
  - rewrite Hm, Hm'. intros H.
    destruct (proj1 (H _) (or_introl eq_refl)) as [E | []].
    injection E. discriminate.
Qed.

(** C5 (amended).  For any reordering of the entries, the keys that yield
    a completed unit are the same (up to order); and when no two relevant
    entries share both a grouping key and a member extension, the
    completed units are the same up to order. *)
Theorem find_pak_sets_permutation (m m' : list member) :
  Permutation m m' ->
  Permutation
    (List.filter (has_all_members (candidates m)) (first_seen (map base_key (candidates m))))
    (List.filter (has_all_members (candidates m')) (first_seen (map base_key (candidates m')))) /\
  ((forall p q, In p (candidates m) -> In q (candidates m) ->
                base_key p = base_key q -> ext_of p = ext_of q -> p = q) ->
   Permutation (pak_sets_of_members m) (pak_sets_of_members m')).
Proof.
  intros P. pose proof (candidates_perm m m' P) as Pc.
  split; [exact (keys_perm _ _ Pc) |].
  intros U. rewrite !pak_sets_keys.
  assert (Hu : map (unit_of (candidates m))
                 (List.filter (has_all_members (candidates m))
                    (first_seen (map base_key (candidates m))))
             = map (unit_of (candidates m'))
                 (List.filter (has_all_members (candidates m))
                    (first_seen (map base_key (candidates m))))).
  { apply map_ext. intros k. unfold unit_of.
    now rewrite !(last_with_unique_perm (candidates m) (candidates m') k _ Pc U). }
  rewrite Hu. apply Permutation_map, keys_perm, Pc.
Qed.

Lemma find_pak_sets_permutation_witness :
  let m := [("a.pak", false); ("a.ucas", false); ("a.utoc", false)] in
  Permutation (pak_sets_of_members m) (pak_sets_of_members (rev m)).
Proof.
  intros m. apply (find_pak_sets_permutation m (rev m) (Permutation_rev m)).
  intros p q Hp Hq Hk He. vm_compute in Hp, Hq.
  destruct Hp as [<- | [<- | [<- | []]]]; destruct Hq as [<- | [<- | [<- | []]]];
    first [reflexivity | vm_compute in He; discriminate He].
Defined.

(* ================================================================== *)
(** ** Claims about archive errors and extraction *)

Lemma reader_except_reraised E archive_path e :
  RAR_SUPPORT E = true -> SEVENZIP_SUPPORT E = true -> rarfile_has_UnrarNotFound E = true ->
  reraised (reader_except E archive_path e) = true.
Proof.
  intros H1 H2 H3. unfold reader_except. rewrite H1, H2, H3. cbn [negb].
  destruct e; reflexivity.
Qed.

Lemma reader_Err E archive_path e :
  get_archive_member_list E archive_path = Err e ->
  exists e0, e = reader_except E archive_path e0.
Proof.
  unfold get_archive_member_list. cbv zeta.
  match goal with |- match ?b with _ => _ end = _ -> _ => destruct b as [l|e0] end.
  - discriminate.
  - intros [= <-]. eauto.
Qed.

(** C6.  When the reader fails with [FileNotFoundError], [ValueError] or
    [RuntimeError] (archive not found, corrupt or unsupported, unexpected
    read error), both search functions raise that same exception; any
    other exception is wrapped in a [RuntimeError] naming the archive.
    With both optional modules present, every reader failure is of the
    first kind. *)
Theorem find_functions_reader_errors (E : env) (archive_path : string) (e : exn) :
  get_archive_member_list E archive_path = Err e ->
  (reraised e = true ->
     find_esps_in_archive E archive_path = Err e /\
     find_pak_sets_in_archive E archive_path = Err e) /\
  (reraised e = false ->
     find_esps_in_archive E archive_path
       = Err (RuntimeError ("Error searching ESPs in '" +s+ archive_name archive_path
                            +s+ "': " +s+ exn_str e)) /\
     find_pak_sets_in_archive E archive_path
       = Err (RuntimeError ("Error searching Pak sets in '" +s+ archive_name archive_path
                            +s+ "': " +s+ exn_str e))) /\
  (RAR_SUPPORT E = true -> SEVENZIP_SUPPORT E = true -> rarfile_has_UnrarNotFound E = true ->
     reraised e = true).
Proof.
  intros H. unfold find_esps_in_archive, find_pak_sets_in_archive. rewrite H.
  split; [| split].
  - intros R. now rewrite R.
  - intros R. now rewrite R.
  - intros H1 H2 H3. destruct (reader_Err _ _ _ H) as [e0 ->].
    now apply reader_except_reraised.
Qed.

Lemma find_functions_reader_errors_witness :
  find_esps_in_archive full_env "mods/mod.zip"
    = Err (ValueError "Error reading 'mod.zip': File is not a zip file") /\
  find_pak_sets_in_archive full_env "mods/mod.zip"
    = Err (ValueError "Error reading 'mod.zip': File is not a zip file").
Proof.
  apply (find_functions_reader_errors full_env "mods/mod.zip"
           (ValueError "Error reading 'mod.zip': File is not a zip file")).
  - vm_compute. reflexivity.
  - reflexivity.
Defined.

(** C7.  For an extension with no available reader, the outcome does not
    depend on any archive library call: with both optional modules it is
    the [ValueError] of an unsupported type, but without [rarfile] the
    [except] clause naming [rarfile.BadRarFile] raises [NameError], and
    without [py7zr] the one naming [py7zr.exceptions.Bad7zFile] does. *)
Theorem unsupported_type_reader (E : env) (archive_path : string) :
  archive_ext archive_path <> ".zip" ->
  (archive_ext archive_path = ".rar" -> RAR_SUPPORT E = false) ->
  (archive_ext archive_path = ".7z" -> SEVENZIP_SUPPORT E = false) ->
  get_archive_member_list E archive_path =
    if negb (RAR_SUPPORT E) then Err (NameError "name 'rarfile' is not defined")
    else if negb (SEVENZIP_SUPPORT E) then Err (NameError "name 'py7zr' is not defined")
    else Err (ValueError ("Error reading '" +s+ archive_name archive_path
                          +s+ "': Unsupported/unavailable type: " +s+ archive_ext archive_path)).
Proof.
  intros Hz Hr Hs. unfold get_archive_member_list.
  destruct (String.eqb (archive_ext archive_path) ".zip") eqn:Ez;
    [apply String.eqb_eq in Ez; contradiction |].
  destruct (String.eqb (archive_ext archive_path) ".rar") eqn:Er.
  { apply String.eqb_eq in Er. pose proof (Hr Er) as R. unfold reader_except.
    rewrite R, Er. reflexivity. }
  destruct (String.eqb (archive_ext archive_path) ".7z") eqn:Es.
  { apply String.eqb_eq in Es. pose proof (Hs Es) as R. unfold reader_except.
    rewrite R, Es. cbn [andb]. destruct (RAR_SUPPORT E); reflexivity. }
  cbn [andb]. unfold reader_except.
  destruct (RAR_SUPPORT E), (SEVENZIP_SUPPORT E); reflexivity.
Qed.

Lemma unsupported_type_reader_witness :
  get_archive_member_list no_rarfile_env "mod.tar" = Err (NameError "name 'rarfile' is not defined") /\
  get_archive_member_list full_env "mod.tar"
    = Err (ValueError "Error reading 'mod.tar': Unsupported/unavailable type: .tar").
Proof.
  split.
  - apply (unsupported_type_reader no_rarfile_env "mod.tar");
      vm_compute; try discriminate; intros H; discriminate H.
  - apply (unsupported_type_reader full_env "mod.tar");
      vm_compute; try discriminate; intros H; discriminate H.
Defined.

Lemma extract_each_ok ex target_dir files acc :
  (forall f, In f files -> ex f = None) ->
  extract_each ex target_dir files acc = Ok (acc ++ map (div (parse_path target_dir)) files).
Proof.
  revert acc; induction files as [|f files IH]; intros acc H; cbn [extract_each map].
  - now rewrite app_nil_r.
  - rewrite (H f (or_introl eq_refl)). rewrite IH by (intros g Hg; apply H; now right).
    now rewrite <- app_assoc.
Qed.

(** C8.  When the target directory exists or is created and the format's
    extraction raises nothing, the call returns one path per requested
    entry, [target_dir / entry] in request order, whatever the file system
    holds afterwards; each such path that does not exist only adds a
    warning line. *)
Theorem extract_paths_and_warnings (E : env) (archive_path : string)
    (files_to_extract : list string) (target_dir : string) :
  mkdir_ok E target_dir = true ->
  (archive_ext archive_path = ".zip" /\
     (forall f, In f files_to_extract -> zip_extract E archive_path f target_dir = None)
   \/ archive_ext archive_path = ".rar" /\ RAR_SUPPORT E = true /\
     (forall f, In f files_to_extract -> rar_extract E archive_path f target_dir = None)
   \/ archive_ext archive_path = ".7z" /\ SEVENZIP_SUPPORT E = true /\
     sz_extract E archive_path files_to_extract target_dir = None) ->
  let paths := map (fun f => as_posix (div (parse_path target_dir) f)) files_to_extract in
  extract_files_from_archive E archive_path files_to_extract target_dir
  = (Ok paths,
     map (fun p => "WARNING: Extracted file missing: " +s+ p)
       (List.filter (fun p => negb (exists_after E p)) paths)).
Proof.
  intros Hmk Hfmt paths. unfold extract_files_from_archive. rewrite Hmk. cbv zeta. cbn [negb].
  assert (Hbody :
    (if String.eqb (archive_ext archive_path) ".zip" then
       extract_each (fun m => zip_extract E archive_path m target_dir) target_dir files_to_extract []
     else if String.eqb (archive_ext archive_path) ".rar" && RAR_SUPPORT E then
       extract_each (fun m => rar_extract E archive_path m target_dir) target_dir files_to_extract []
     else if String.eqb (archive_ext archive_path) ".7z" && SEVENZIP_SUPPORT E then
       match sz_extract E archive_path files_to_extract target_dir with
       | Some e => Err e
       | None => Ok (map (fun member => div (parse_path target_dir) member) files_to_extract)
       end
     else Err (ValueError ("Unsupported type for extraction: " +s+ archive_ext archive_path)))
    = Ok (map (div (parse_path target_dir)) files_to_extract)).
  { destruct Hfmt as [[Hz Hx] | [[Hr [Hs Hx]] | [H7 [Hs Hx]]]].
    - rewrite Hz. cbn. now rewrite extract_each_ok.
    - rewrite Hr, Hs. cbn. now rewrite extract_each_ok.
    - rewrite H7, Hs, Hx. reflexivity. }
  rewrite Hbody. unfold paths. f_equal.
  - now rewrite map_map.
  - rewrite <- (map_map (div (parse_path target_dir)) as_posix).
    generalize (map (div (parse_path target_dir)) files_to_extract) as l.
    induction l as [|p l IH]; [reflexivity |].
    cbn [map List.filter]. destruct (negb (exists_after E (as_posix p))); cbn [map];
      [f_equal |]; exact IH.
Qed.

Lemma extract_paths_and_warnings_witness :
  extract_files_from_archive full_env "mod.zip" ["a.esp"; "Data/b.esp"] "/tmp/x"
  = (Ok ["/tmp/x/a.esp"; "/tmp/x/Data/b.esp"],
     ["WARNING: Extracted file missing: /tmp/x/Data/b.esp"]).
Proof.
  apply (extract_paths_and_warnings full_env "mod.zip" ["a.esp"; "Data/b.esp"] "/tmp/x").
  - reflexivity.
  - left. split; [vm_compute; reflexivity | intros f _; reflexivity].
Defined.

(* ================================================================== *)
(** ** Claims about the plugins file *)

Module PluginFacts.

Lemma app_empty_s s : "" +s+ s = s.
Proof. reflexivity. Qed.

Lemma app_cons_s c a b : String c a +s+ b = String c (a +s+ b).
Proof. reflexivity. Qed.

Lemma rstrip_by_snoc P s c :
  P c = true -> rstrip_by P (s +s+ String c "") = rstrip_by P s.
Proof.
  intros Hc. induction s as [|d s IH]; rewrite ?app_empty_s, ?app_cons_s; cbn [rstrip_by].
  - now rewrite Hc.
  - now rewrite IH.
Qed.

Lemma strip_by_snoc P s c :
  P c = true -> strip_by P (s +s+ String c "") = strip_by P s.
Proof.
  intros Hc. unfold strip_by. induction s as [|d s IH];
    rewrite ?app_empty_s, ?app_cons_s; cbn [lstrip_by].
  - rewrite Hc. reflexivity.
  - destruct (P d) eqn:Hd; [exact IH |].
    rewrite <- app_cons_s. now apply rstrip_by_snoc.
Qed.

Lemma strip_NL p : strip (p +s+ NL) = strip p.
Proof. apply strip_by_snoc. reflexivity. Qed.

Lemma append_assoc_s (a b c : string) : (a +s+ b) +s+ c = a +s+ (b +s+ c).
Proof.
  induction a as [|x a IH]; [reflexivity |]. rewrite !app_cons_s. now rewrite IH.
Qed.

Lemma text_lines_line p rest :
  has_line_break p = false -> text_lines (p +s+ NL +s+ rest) = (p +s+ NL) :: text_lines rest.
Proof.
  induction p as [|c p IH]; intros H; [reflexivity |].
  cbn [has_line_break] in H. apply orb_false_iff in H as [H Hp].
  apply orb_false_iff in H as [Hn _].
  rewrite app_cons_s. cbn [text_lines]. rewrite Hn, (IH Hp).
  reflexivity.
Qed.

Lemma translate_line ls p rest :
  has_line_break p = false ->
  translate_newlines ls (p +s+ NL +s+ rest) = p +s+ ls +s+ translate_newlines ls rest.
Proof.
  induction p as [|c p IH]; intros H; [reflexivity |].
  cbn [has_line_break] in H. apply orb_false_iff in H as [H Hp].
  apply orb_false_iff in H as [Hn _].
  rewrite app_cons_s. cbn [translate_newlines]. rewrite Hn, (IH Hp).
  reflexivity.
Qed.

Lemma universal_line ls p rest :
  ls = NL \/ ls = String "013" NL -> has_line_break p = false ->
  universal_newlines (p +s+ ls +s+ rest) = p +s+ NL +s+ universal_newlines rest.
Proof.
  intros Hls. induction p as [|c p IH]; intros H.
  - destruct Hls as [-> | ->]; reflexivity.
  - cbn [has_line_break] in H. apply orb_false_iff in H as [H Hp].
    apply orb_false_iff in H as [_ Hr].
    rewrite app_cons_s. cbn [universal_newlines]. rewrite Hr, (IH Hp).
    reflexivity.
Qed.

Lemma written_round_trip ls l :
  ls = NL \/ ls = String "013" NL -> Forall line_ok l ->
  text_lines (universal_newlines (translate_newlines ls (written_text l)))
  = map (fun p => p +s+ NL) l.
Proof.
  intros Hls. induction l as [|p l IH]; intros Hl; [reflexivity |].
  inversion Hl as [| ? ? [Hne [_ [_ Hb]]] Hl']; subst.
  cbn [written_text map]. destruct (String.eqb p "") eqn:E;
    [apply String.eqb_eq in E; contradiction |].
  rewrite append_assoc_s, translate_line by exact Hb.
  rewrite universal_line by assumption. rewrite text_lines_line by exact Hb.
  now rewrite IH.
Qed.

Lemma read_lines l :
  Forall line_ok l ->
  map strip
    (List.filter (fun ln => negb (String.eqb (strip ln) "") && negb (starts_with "#" (strip ln)))
       (map (fun p => p +s+ NL) l)) = l.
Proof.
  induction l as [|p l IH]; intros Hl; [reflexivity |].
  inversion Hl as [| ? ? [Hne [Hs [Hh _]]] Hl']; subst.
  cbn [map List.filter]. rewrite strip_NL, Hs, Hh.
  destruct (String.eqb p "") eqn:E; [apply String.eqb_eq in E; contradiction |].
  cbn [negb andb map]. rewrite strip_NL, Hs. now rewrite IH.
Qed.

Lemma strip_starts_hash ln :
  negb (String.eqb (strip ln) "") && negb (starts_with "#" (strip ln)) = true ->
  strip ln <> "" /\ starts_with "#" (strip ln) = false.
Proof.
  intros H. apply andb_prop in H as [H1 H2]. apply negb_true_iff in H1, H2.
  split; [intros E; rewrite E in H1; discriminate | exact H2].
Qed.

End PluginFacts.

Import PluginFacts.

(** C9 (as stated).  A non-empty, stripped entry without a leading ['#']
    that holds a line break comes back as two entries. *)
Lemma plugins_round_trip_counterexample :
  let l := ["a" +s+ NL +s+ "b"] in
  Forall (fun p => p <> "" /\ strip p = p /\ starts_with "#" p = false) l /\
  read_plugins_file (snd (write_plugins_file true NL l)) = ["a"; "b"].
Proof.
  intros l. split.
  - constructor; [| constructor]. split; [discriminate | split; vm_compute; reflexivity].
  - vm_compute. reflexivity.
Qed.

(** C9 (amended).  Writing entries that are non-empty, equal to their
    stripped form, do not start with ['#'] and hold no line break
    (["\n"] or ["\r"]), with ["\n"] or ["\r\n"] line endings, and reading
    the file back gives the same list; whatever the file holds, what is
    read has no empty entry and no entry starting with ['#']. *)
Theorem plugins_round_trip (linesep : string) (plugins_list : list string) :
  linesep = NL \/ linesep = String "013" NL ->
  Forall (fun p => p <> "" /\ strip p = p /\ starts_with "#" p = false
                   /\ has_line_break p = false) plugins_list ->
  read_plugins_file (snd (write_plugins_file true linesep plugins_list)) = plugins_list /\
  (forall file, Forall (fun p => p <> "" /\ starts_with "#" p = false) (read_plugins_file file)).
Proof.
  intros Hls Hl. split.
  - cbn [write_plugins_file negb snd read_plugins_file].
    rewrite (written_round_trip linesep plugins_list Hls Hl). exact (read_lines _ Hl).
  - intros [content|]; [| constructor]. cbn [read_plugins_file].
    apply List.Forall_forall. intros p Hp. apply in_map_iff in Hp as [ln [<- Hln]].
    apply filter_In in Hln as [_ Hln]. exact (strip_starts_hash ln Hln).
Qed.

Lemma plugins_round_trip_witness :
  read_plugins_file (snd (write_plugins_file true (String "013" NL) ["Oblivion.esm"; "My Mod.esp"]))
  = ["Oblivion.esm"; "My Mod.esp"] /\
  Forall (fun p => p <> "" /\ starts_with "#" p = false)
    (read_plugins_file (Some ("# comment" +s+ NL +s+ "a.esp"))).
Proof.
  destruct (plugins_round_trip (String "013" NL) ["Oblivion.esm"; "My Mod.esp"]) as [H1 H2].
  - right. reflexivity.
  - repeat constructor; try discriminate; vm_compute; reflexivity.
  - split; [exact H1 | apply H2].
Defined.

(* ================================================================== *)
(** ** Claims about the load-order editor *)

Module LoadOrderFacts.

Lemma separate_eq all_plugins :
  separate all_plugins
  = (List.filter is_default all_plugins,
     List.filter (fun p => negb (is_default p)) all_plugins).
Proof.
  unfold separate.
  assert (H : forall l a b, fold_left
    (fun (sections : list string * list string) plugin =>
       if mem (lower plugin) default_plugins_lower
       then (fst sections ++ [plugin], snd sections)
       else (fst sections, snd sections ++ [plugin])) l (a, b)
    = (a ++ List.filter is_default l, b ++ List.filter (fun p => negb (is_default p)) l)).
  { induction l as [|x l IH]; intros a b; cbn [fold_left List.filter].
    - now rewrite !app_nil_r.
    - change (mem (lower x) default_plugins_lower) with (is_default x).
      destruct (is_default x); cbn [fst snd negb]; rewrite IH; now rewrite <- app_assoc. }
  apply H.
Qed.

Lemma filter_split_perm {A} (f : A -> bool) l :
  Permutation (List.filter f l ++ List.filter (fun x => negb (f x)) l) l.
Proof.
  induction l as [|x l IH]; [reflexivity |]. cbn [List.filter].
  destruct (f x); cbn [negb app].
  - now apply perm_skip.
  - rewrite <- Permutation_middle. now apply perm_skip.
Qed.

Lemma size_list_to_set_le (l : list Z) : size (list_to_set l : gset Z) <= length l.
Proof.
  induction l as [|x l IH]; cbn [list_to_set length].
  - rewrite size_empty. lia.
  - rewrite size_union_alt, size_singleton.
    pose proof (subseteq_size (list_to_set l ∖ {[x]} : gset Z) (list_to_set l)
                  ltac:(set_solver)). lia.
Qed.

Lemma size_NoDup (l : list Z) : size (list_to_set l : gset Z) = length l -> NoDup l.
Proof.
  induction l as [|x l IH]; intros H; [constructor |].
  cbn [list_to_set length] in H.
  destruct (decide (x ∈ l)) as [Hx | Hx].
  - assert (E : ({[x]} ∪ list_to_set l : gset Z) = list_to_set l).
    { apply leibniz_equiv. intros y. rewrite elem_of_union, elem_of_singleton, elem_of_list_to_set.
      split; [intros [-> | Hy]; [exact Hx |] |]; tauto. }
    rewrite E in H. pose proof (size_list_to_set_le l). lia.
  - rewrite size_union in H.
    + rewrite size_singleton in H. apply NoDup_cons. split; [exact Hx | apply IH; lia].
    + intros y Hy1 Hy2. apply elem_of_singleton in Hy1. subst y.
      apply elem_of_list_to_set in Hy2. contradiction.
Qed.

Lemma omap_map_comp {A B C} (f : B -> option C) (g : A -> B) (l : list A) :
  omap f (map g l) = omap (fun x => f (g x)) l.
Proof.
  induction l as [|x l IH]; cbn [map omap list_omap]; [reflexivity |].
  rewrite IH. reflexivity.
Qed.

Lemma omap_perm {A B} (f : A -> option B) (l l' : list A) :
  Permutation l l' -> Permutation (omap f l) (omap f l').
Proof.
  induction 1 as [| x l l' _ IH | x y l | l l' l'' _ IH1 _ IH2]; cbn [omap list_omap].
  - constructor.
  - destruct (f x); [now apply perm_skip | exact IH].
  - destruct (f x), (f y); try constructor; reflexivity.
  - now transitivity (omap f l').
Qed.

Lemma omap_lookup_seq {A} (c : list A) (f : nat -> option A) :
  (forall k, f k = c !! k) -> omap f (seq 0 (length c)) = c.
Proof.
  revert f. induction c as [|x c IH]; intros f Hf; [reflexivity |].
  cbn [length seq omap list_omap]. rewrite (Hf 0). cbn [lookup list_lookup].
  rewrite <- seq_shift, omap_map_comp. f_equal. apply IH.
  intros k. rewrite Hf. reflexivity.
Qed.

Lemma perm_of_indices {A} (c : list A) (idx : list Z) :
  Z.of_nat (length idx) = Z.of_nat (length c) ->
  forallb (fun i => (0 <=? i)%Z && (i <? Z.of_nat (length c))%Z) idx = true ->
  Z.of_nat (size (list_to_set idx : gset Z)) = Z.of_nat (length c) ->
  Permutation (omap (fun i => c !! Z.to_nat i) idx) c.
Proof.
  intros Hlen Hrange Hsize. apply Nat2Z.inj in Hlen, Hsize.
  assert (Hnd : NoDup idx) by (apply size_NoDup; lia).
  assert (Hr : forall i, i ∈ idx -> (0 <= i < Z.of_nat (length c))%Z).
  { intros i Hi. apply list_elem_of_In in Hi.
    apply forallb_forall with (x := i) in Hrange; [| exact Hi].
    apply andb_prop in Hrange as [H1 H2]. apply Z.leb_le in H1. apply Z.ltb_lt in H2. lia. }
  rewrite <- (omap_map_comp (fun k => c !! k) Z.to_nat).
  assert (Hperm : Permutation (map Z.to_nat idx) (seq 0 (length c))).
  { apply submseteq_length_Permutation; [| rewrite length_map, length_seq; lia].
    apply NoDup_submseteq.
    - apply NoDup_fmap_2_strong; [| exact Hnd].
      intros x y Hx Hy E. apply Hr in Hx, Hy. lia.
    - intros k Hk. apply list_elem_of_fmap in Hk as [i [-> Hi]]. apply Hr in Hi.
      apply elem_of_seq. lia. }
  rewrite (omap_perm _ _ _ Hperm). rewrite (omap_lookup_seq c); reflexivity.
Qed.

Lemma load_order_loop_out d c inputs out :
  load_order_loop d c inputs = Some out -> exists nc, out = d ++ nc /\ Permutation nc c.
Proof.
  induction inputs as [|[line|] rest IH]; cbn [load_order_loop]; try discriminate.
  destruct (String.eqb (strip line) ""); [discriminate |].
  destruct (findall_digits (strip line)) as [|s ss]; [exact IH |].
  cbv zeta.
  destruct (negb (Z.of_nat (length (map (fun i => (int_of i - 1)%Z) (s :: ss)))
                  =? Z.of_nat (length c))%Z) eqn:H1; [exact IH |].
  destruct (negb (forallb (fun idx => (0 <=? idx)%Z && (idx <? Z.of_nat (length c))%Z)
                   (map (fun i => (int_of i - 1)%Z) (s :: ss)))) eqn:H2; [exact IH |].
  destruct (negb (Z.of_nat (size (list_to_set (map (fun i => (int_of i - 1)%Z) (s :: ss)) : gset Z))
                  =? Z.of_nat (length c))%Z) eqn:H3; [exact IH |].
  apply negb_false_iff in H1, H2, H3. apply Z.eqb_eq in H1, H3.
  destruct rest as [|[confirm|] rest']; try discriminate.
  destruct (String.eqb (strip (lower confirm)) "y"); [| discriminate].
  intros [= <-].
  exists (omap (fun i => c !! Z.to_nat i) (map (fun i => (int_of i - 1)%Z) (s :: ss))).
  split; [reflexivity |]. now apply perm_of_indices.
Qed.

Lemma loop_rejects d c line rest :
  strip line <> "" ->
  let idx := map (fun i => (int_of i - 1)%Z) (findall_digits (strip line)) in
  ~ (length idx = length c /\ Forall (fun i => 0 <= i < Z.of_nat (length c))%Z idx /\ NoDup idx) ->
  load_order_loop d c (Some line :: rest) = load_order_loop d c rest.
Proof.
  intros Hne idx Hbad. cbn [load_order_loop].
  destruct (String.eqb (strip line) "") eqn:E; [apply String.eqb_eq in E; contradiction |].
  unfold idx in Hbad. destruct (findall_digits (strip line)) as [|s ss]; [reflexivity |].
  cbv zeta.
  destruct (negb (Z.of_nat (length (map (fun i => (int_of i - 1)%Z) (s :: ss)))
                  =? Z.of_nat (length c))%Z) eqn:H1; [reflexivity |].
  destruct (negb (forallb (fun idx => (0 <=? idx)%Z && (idx <? Z.of_nat (length c))%Z)
                   (map (fun i => (int_of i - 1)%Z) (s :: ss)))) eqn:H2; [reflexivity |].
  destruct (negb (Z.of_nat (size (list_to_set (map (fun i => (int_of i - 1)%Z) (s :: ss)) : gset Z))
                  =? Z.of_nat (length c))%Z) eqn:H3; [reflexivity |].
  exfalso. apply Hbad.
  apply negb_false_iff in H1, H2, H3. apply Z.eqb_eq in H1, H3. apply Nat2Z.inj in H1, H3.
  split; [exact H1 | split].
  - apply List.Forall_forall. intros i Hi.
    apply forallb_forall with (x := i) in H2; [| exact Hi].
    apply andb_prop in H2 as [H4 H5]. apply Z.leb_le in H4. apply Z.ltb_lt in H5. lia.
  - apply size_NoDup. lia.
Qed.

End LoadOrderFacts.

Import LoadOrderFacts.

(** C10.  Whatever [process_load_order] hands to [write_plugins_file] is
    the default plugins of the file in their original order followed by a
    permutation of its custom plugins (so a permutation of the file's
    list); and a non-empty input line whose numbers do not give a
    duplicate-free list of [n] indices in [1..n] is rejected: the loop goes
    on with the next input line as if it had not been given. *)
Theorem process_load_order_permutation (all_plugins : list string) (inputs : list input)
    (final_plugin_list : list string) :
  process_load_order (Some all_plugins) inputs = Some final_plugin_list ->
  (exists new_custom_section,
     final_plugin_list = List.filter is_default all_plugins ++ new_custom_section /\
     Permutation new_custom_section (List.filter (fun p => negb (is_default p)) all_plugins) /\
     Permutation final_plugin_list all_plugins) /\
  (forall default_section custom_section line rest,
     strip line <> "" ->
     let new_indices := map (fun i => (int_of i - 1)%Z) (findall_digits (strip line)) in
     ~ (length new_indices = length custom_section /\
        Forall (fun i => 0 <= i < Z.of_nat (length custom_section))%Z new_indices /\
        NoDup new_indices) ->
     load_order_loop default_section custom_section (Some line :: rest)
     = load_order_loop default_section custom_section rest).
Proof.
  intros H. split.
  - unfold process_load_order in H. rewrite separate_eq in H.
    destruct (List.filter (fun p => negb (is_default p)) all_plugins) as [|x xs] eqn:Hc;
      [discriminate |].
    destruct (load_order_loop_out _ _ _ _ H) as [nc [-> Hp]].
    exists nc. split; [reflexivity | split; [exact Hp |]].
    etransitivity; [| apply (filter_split_perm is_default all_plugins)].
    rewrite Hc. now apply Permutation_app_head.
  - intros d c line rest Hne. apply loop_rejects, Hne.
Qed.

Lemma process_load_order_permutation_witness :
  exists new_custom_section,
    ["Oblivion.esm"; "c.esp"; "a.esp"; "b.esp"]
      = List.filter is_default ["Oblivion.esm"; "a.esp"; "b.esp"; "c.esp"] ++ new_custom_section /\
    Permutation new_custom_section
      (List.filter (fun p => negb (is_default p)) ["Oblivion.esm"; "a.esp"; "b.esp"; "c.esp"]) /\
    Permutation ["Oblivion.esm"; "c.esp"; "a.esp"; "b.esp"] ["Oblivion.esm"; "a.esp"; "b.esp"; "c.esp"].
Proof.
  apply (process_load_order_permutation ["Oblivion.esm"; "a.esp"; "b.esp"; "c.esp"]
           [Some "x"; Some "1 1 2"; Some "3, 1, 2"; Some "Y"]).
  vm_compute. reflexivity.
Defined.

(* ================================================================== *)
(** ** The plugins registry *)

Module RegistryFacts.

Lemma rstrip_by_idem P s : rstrip_by P (rstrip_by P s) = rstrip_by P s.
Proof.
  induction s as [|c s IH]; [reflexivity |]. cbn [rstrip_by].
  destruct (String.eqb (rstrip_by P s) "" && P c) eqn:Hc; [reflexivity |].
  cbn [rstrip_by]. rewrite IH, Hc. reflexivity.
Qed.

Lemma rstrip_head P c t : P c = false -> rstrip_by P (String c t) = String c (rstrip_by P t).
Proof. intros H. cbn [rstrip_by]. now rewrite H, andb_false_r. Qed.

Lemma lstrip_head P c t : P c = false -> lstrip_by P (String c t) = String c t.
Proof. intros H. cbn [lstrip_by]. now rewrite H. Qed.

Lemma lstrip_by_shape P s :
  lstrip_by P s = "" \/ exists c t, lstrip_by P s = String c t /\ P c = false.
Proof.
  induction s as [|c s IH]; cbn [lstrip_by]; [now left |].
  destruct (P c) eqn:Hc; [exact IH | right; eauto].
Qed.

Lemma strip_idem s : strip (strip s) = strip s.
Proof.
  unfold strip, strip_by.
  destruct (lstrip_by_shape is_space s) as [-> | [c [t [-> Hc]]]]; [reflexivity |].
  rewrite (rstrip_head _ c t Hc), lstrip_head by exact Hc.
  rewrite rstrip_head by exact Hc. now rewrite rstrip_by_idem.
Qed.

Lemma lstrip_no_break P s : has_line_break s = false -> has_line_break (lstrip_by P s) = false.
Proof.
  induction s as [|c s IH]; intros H; [reflexivity |]. cbn [lstrip_by].
  destruct (P c); [| exact H]. apply IH.
  cbn [has_line_break] in H. now apply orb_false_iff in H as [_ H].
Qed.

Lemma rstrip_no_break P s : has_line_break s = false -> has_line_break (rstrip_by P s) = false.
Proof.
  induction s as [|c s IH]; intros H; [reflexivity |].
  cbn [has_line_break] in H. apply orb_false_iff in H as [H1 H2].
  cbn [rstrip_by]. destruct (String.eqb (rstrip_by P s) "" && P c); [reflexivity |].
  cbn [has_line_break]. rewrite H1. now apply IH.
Qed.

Lemma strip_no_break s : has_line_break s = false -> has_line_break (strip s) = false.
Proof. intros H. unfold strip, strip_by. apply rstrip_no_break, lstrip_no_break, H. Qed.

Lemma universal_no_cr_aux s :
  no_cr (universal_newlines s) = true /\
  (forall d t, s = String d t -> no_cr (universal_newlines t) = true).
Proof.
  induction s as [|c s [IH1 IH2]].
  - split; [reflexivity | discriminate].
  - split; [| intros d t [= _ <-]; exact IH1].
    cbn [universal_newlines]. destruct (Ascii.eqb c "013") eqn:Hc.
    + destruct s as [|d s'']; [reflexivity |].
      destruct (Ascii.eqb d "010"); cbn [no_cr]; rewrite ?(IH2 d s'' eq_refl), ?IH1; reflexivity.
    + cbn [no_cr]. now rewrite Hc, IH1.
Qed.

Lemma universal_no_cr s : no_cr (universal_newlines s) = true.
Proof. apply universal_no_cr_aux. Qed.

Lemma text_lines_shape s :
  no_cr s = true ->
  Forall (fun ln => exists w, has_line_break w = false /\ (ln = w \/ ln = w +s+ NL))
    (text_lines s).
Proof.
  induction s as [|c s IH]; intros H; [constructor |].
  cbn [no_cr] in H. apply andb_prop in H as [Hc H]. apply negb_true_iff in Hc.
  specialize (IH H). cbn [text_lines]. destruct (Ascii.eqb c "010") eqn:Hn.
  - apply Ascii.eqb_eq in Hn. subst c.
    constructor; [| exact IH]. exists "". split; [reflexivity | now right].
  - destruct (text_lines s) as [|ln lns].
    + constructor; [| constructor]. exists (String c "").
      split; [cbn [has_line_break]; now rewrite Hn, Hc | now left].
    + inversion IH as [| ? ? [w [Hw Hl]] Hrest]; subst.
      constructor; [| exact Hrest]. exists (String c w).
      split; [cbn [has_line_break]; now rewrite Hn, Hc |].
      destruct Hl as [-> | ->]; [now left | right; reflexivity].
Qed.

Lemma read_line_ok file : Forall line_ok (read_plugins_file file).
Proof.
  destruct file as [content|]; [| constructor]. cbn [read_plugins_file].
  pose proof (text_lines_shape _ (universal_no_cr content)) as Hs.
  rewrite List.Forall_forall in Hs.
  apply List.Forall_forall. intros p Hp. apply in_map_iff in Hp as [ln [<- Hln]].
  apply filter_In in Hln as [Hin Hf]. apply strip_starts_hash in Hf as [Hne Hh].
  destruct (Hs ln Hin) as [w [Hw Hl]].
  split; [exact Hne |]. split; [apply strip_idem |]. split; [exact Hh |].
  destruct Hl as [-> | ->]; [| rewrite strip_NL]; now apply strip_no_break.
Qed.

Lemma written_lines ls l :
  ls = NL \/ ls = String "013" NL ->
  Forall (fun p => p <> "" /\ has_line_break p = false) l ->
  text_lines (universal_newlines (translate_newlines ls (written_text l)))
  = map (fun p => p +s+ NL) l.
Proof.
  intros Hls. induction l as [|p l IH]; intros Hl; [reflexivity |].
  inversion Hl as [| ? ? [Hne Hb] Hl']; subst.
  cbn [written_text map]. destruct (String.eqb p "") eqn:E;
    [apply String.eqb_eq in E; contradiction |].
  rewrite append_assoc_s, translate_line by exact Hb.
  rewrite universal_line by assumption. rewrite text_lines_line by exact Hb.
  now rewrite IH.
Qed.

(** What reading returns after a write of entries without line breaks. *)
Lemma read_written ls l :
  ls = NL \/ ls = String "013" NL ->
  Forall (fun p => p <> "" /\ has_line_break p = false) l ->
  read_plugins_file (Some (translate_newlines ls (written_text l)))
  = map strip (List.filter
                 (fun p => negb (String.eqb (strip p) "") && negb (starts_with "#" (strip p))) l).
Proof.
  intros Hls Hl. cbn [read_plugins_file]. rewrite (written_lines ls l Hls Hl). clear Hl.
  induction l as [|p l IH]; [reflexivity |]. cbn [map List.filter]. rewrite strip_NL.
  destruct (negb (String.eqb (strip p) "") && negb (starts_with "#" (strip p)));
    cbn [map]; rewrite ?strip_NL, IH; reflexivity.
Qed.

Lemma keep_line_ok l :
  Forall line_ok l ->
  map strip (List.filter
               (fun p => negb (String.eqb (strip p) "") && negb (starts_with "#" (strip p))) l) = l.
Proof.
  induction l as [|p l IH]; intros Hl; [reflexivity |].
  inversion Hl as [| ? ? [Hne [Hs [Hh _]]] Hl']; subst.
  cbn [List.filter]. rewrite Hs, Hh.
  destruct (String.eqb p "") eqn:E; [apply String.eqb_eq in E; contradiction |].
  cbn [negb andb map]. rewrite Hs. now rewrite IH.
Qed.

Lemma line_ok_weak l :
  Forall line_ok l -> Forall (fun p => p <> "" /\ has_line_break p = false) l.
Proof. intros H. refine (List.Forall_impl _ _ H). intros p [H1 [_ [_ H2]]]. now split. Qed.

Lemma read_plugins_ok W cur : read_plugins W = Some cur -> Forall line_ok cur.
Proof.
  unfold read_plugins. destruct (pt_content W) as [c|]; [| intros [= <-]; constructor].
  destruct (pt_readable W); [intros H; injection H as <-; exact (read_line_ok (Some c)) | discriminate].
Qed.

Lemma read_plugins_nonempty W cur :
  read_plugins W = Some cur -> cur <> [] -> pt_readable W = true.
Proof.
  unfold read_plugins. destruct (pt_content W) as [c|]; [| intros [= <-]; congruence].
  destruct (pt_readable W); [reflexivity | discriminate].
Qed.

Lemma write_plugins_ok W l :
  pt_writable W = true ->
  write_plugins W l = (true, with_content W (translate_newlines (pt_linesep W) (written_text l))).
Proof. intros H. unfold write_plugins, write_plugins_file. now rewrite H. Qed.

Lemma read_with_content W c :
  pt_readable W = true -> read_plugins (with_content W c) = Some (read_plugins_file (Some c)).
Proof. intros H. unfold read_plugins, with_content. cbn. now rewrite H. Qed.

Lemma filter_length_le {A} (f : A -> bool) l : length (List.filter f l) <= length l.
Proof. induction l as [|a l IH]; cbn; [lia |]. destruct (f a); cbn; lia. Qed.

Lemma filter_length_eq {A} (f : A -> bool) l :
  length (List.filter f l) = length l -> List.filter f l = l.
Proof.
  induction l as [|a l IH]; intros H; [reflexivity |]. cbn in *.
  destruct (f a); cbn in H.
  - f_equal. apply IH. lia.
  - pose proof (filter_length_le f l). lia.
Qed.

Lemma existsb_lower_false b cur :
  (forall p, In p cur -> lower p <> lower b) ->
  existsb (fun p => String.eqb (lower b) (lower p)) cur = false.
Proof.
  intros H. apply not_true_iff_false. intros Hx. apply existsb_exists in Hx as [p [Hp Hx]].
  apply String.eqb_eq in Hx. exact (H p Hp (eq_sym Hx)).
Qed.

(** One successful registration of a fresh, well-formed name. *)
Lemma register_fresh W esp cur :
  read_plugins W = Some cur -> pt_readable W = true -> pt_writable W = true ->
  pt_linesep W = NL \/ pt_linesep W = String "013" NL ->
  has_line_break (name (parse_path esp)) = false -> name (parse_path esp) <> "" ->
  (forall p, In p cur -> lower p <> lower (name (parse_path esp))) ->
  register_plugin W esp
  = (true, with_content W (translate_newlines (pt_linesep W)
                             (written_text (cur ++ [name (parse_path esp)])))) /\
  read_plugins (with_content W (translate_newlines (pt_linesep W)
                                  (written_text (cur ++ [name (parse_path esp)]))))
  = Some (cur ++ map strip (List.filter
            (fun p => negb (String.eqb (strip p) "") && negb (starts_with "#" (strip p)))
            [name (parse_path esp)])).
Proof.
  intros Hr Hrd Hw Hls Hb Hne Hfresh. split.
  - unfold register_plugin. cbv zeta. rewrite Hr, existsb_lower_false by exact Hfresh.
    now apply write_plugins_ok.
  - rewrite read_with_content by exact Hrd. pose proof (read_plugins_ok W cur Hr) as Hok.
    rewrite read_written.
    + rewrite List.filter_app, map_app. now rewrite keep_line_ok.
    + exact Hls.
    + apply Forall_app. split; [now apply line_ok_weak |]. constructor; [now split | constructor].
Qed.

Lemma lower_char_hash c : lower_char c = "#"%char -> c = "#"%char.
Proof.
  unfold lower_char. destruct ((65 <=? nat_of_ascii c)%nat && (nat_of_ascii c <=? 90)%nat) eqn:H;
    [| exact id].
  intros E. apply andb_prop in H as [H1 H2]. apply Nat.leb_le in H1, H2.
  apply (f_equal nat_of_ascii) in E. rewrite nat_ascii_embedding in E by lia.
  change (nat_of_ascii "#"%char) with 35%nat in E. lia.
Qed.

End RegistryFacts.

Import RegistryFacts.

Module RegistryFacts2.

Lemma Forall_filter_l {A} (P : A -> Prop) f l : Forall P l -> Forall P (List.filter f l).
Proof.
  rewrite !List.Forall_forall. intros H x Hx. apply filter_In in Hx as [Hx _]. now apply H.
Qed.

Lemma filter_all_true {A} (f : A -> bool) l :
  (forall x, In x l -> f x = true) -> List.filter f l = l.
Proof.
  induction l as [|a l IH]; intros H; [reflexivity |]. cbn [List.filter].
  rewrite (H a (or_introl eq_refl)). f_equal. apply IH. intros x Hx. apply H. now right.
Qed.

Lemma line_ok_name_unpack b :
  line_ok b ->
  b <> "" /\ strip b = b /\ starts_with "#" b = false /\ has_line_break b = false.
Proof. exact id. Qed.

Lemma keep_one b :
  line_ok b ->
  map strip (List.filter
    (fun p => negb (String.eqb (strip p) "") && negb (starts_with "#" (strip p))) [b]) = [b].
Proof. intros Hb. apply keep_line_ok. now constructor. Qed.

Lemma register_round_trip_aux W esp cur :
  read_plugins W = Some cur -> pt_readable W = true -> pt_writable W = true ->
  pt_linesep W = NL \/ pt_linesep W = String "013" NL ->
  line_ok (name (parse_path esp)) ->
  (forall p, In p cur -> lower p <> lower (name (parse_path esp))) ->
  exists W', register_plugin W esp = (true, W') /\
             read_plugins W' = Some (cur ++ [name (parse_path esp)]) /\
             pt_readable W' = true /\ pt_writable W' = true /\ pt_linesep W' = pt_linesep W.
Proof.
  intros Hr Hrd Hw Hls Hb Hf. pose proof Hb as [Hne [_ [_ Hbr]]].
  destruct (register_fresh W esp cur Hr Hrd Hw Hls Hbr Hne Hf) as [E1 E2].
  eexists. split; [exact E1 |]. rewrite E2, keep_one by exact Hb.
  split; [reflexivity |]. cbn. now repeat split.
Qed.

Lemma remove_round_trip_aux W b cur :
  read_plugins W = Some cur -> pt_writable W = true ->
  pt_linesep W = NL \/ pt_linesep W = String "013" NL ->
  exists W', remove_plugin_from_registry W b = (true, W') /\
    read_plugins W' = Some (List.filter (fun p => negb (String.eqb (lower p) (lower b))) cur).
Proof.
  intros Hr Hw Hls. unfold remove_plugin_from_registry. rewrite Hr. cbv zeta.
  set (f := fun p => negb (String.eqb (lower p) (lower b))).
  destruct (Nat.eqb (length (List.filter f cur)) (length cur)) eqn:Hl.
  - exists W. split; [reflexivity |]. apply Nat.eqb_eq, filter_length_eq in Hl.
    now rewrite Hl.
  - rewrite write_plugins_ok by exact Hw. eexists. split; [reflexivity |].
    assert (Hne : cur <> []) by (intros ->; discriminate Hl).
    rewrite read_with_content by exact (read_plugins_nonempty W cur Hr Hne).
    pose proof (Forall_filter_l _ f _ (read_plugins_ok W cur Hr)) as Hok.
    rewrite read_written; [| exact Hls | now apply line_ok_weak].
    now rewrite keep_line_ok.
Qed.

Lemma starts_hash_lower p t :
  line_ok p -> lower p <> lower (String "#" t).
Proof.
  intros [Hne [_ [Hh _]]] E. destruct p as [|d p]; [contradiction |].
  cbn [lower] in E. injection E as Ed _.
  change (lower_char "#"%char) with "#"%char in Ed. apply lower_char_hash in Ed. subst d.
  discriminate Hh.
Qed.

Lemma strip_hash t : starts_with "#" (strip (String "#" t)) = true.
Proof.
  unfold strip, strip_by. rewrite lstrip_head by reflexivity.
  rewrite rstrip_head by reflexivity. reflexivity.
Qed.

Lemma default_plugins_lowercase : default_plugins_lower = DEFAULT_PLUGINS.
Proof. vm_compute. reflexivity. Qed.

End RegistryFacts2.

Import RegistryFacts2.

(** Registering an archive member whose file name is non-empty, equal to
    its stripped form, not starting with ['#'] and free of line breaks, and
    equal (ignoring case) to no registered entry, succeeds when
    [plugins.txt] can be read and written with ["\n"] or ["\r\n"] line
    endings; reading the file afterwards gives the previous entries in
    their order followed by the new name. *)
Theorem register_plugin_round_trip (W : plugins_world) (esp_filename_in_archive : string)
    (cur : list string) :
  read_plugins W = Some cur -> pt_readable W = true -> pt_writable W = true ->
  pt_linesep W = NL \/ pt_linesep W = String "013" NL ->
  line_ok (name (parse_path esp_filename_in_archive)) ->
  (forall p, In p cur -> lower p <> lower (name (parse_path esp_filename_in_archive))) ->
  exists W', register_plugin W esp_filename_in_archive = (true, W') /\
             read_plugins W' = Some (cur ++ [name (parse_path esp_filename_in_archive)]).
Proof.
  intros Hr Hrd Hw Hls Hb Hf.
  destruct (register_round_trip_aux W esp_filename_in_archive cur Hr Hrd Hw Hls Hb Hf)
    as [W' [E1 [E2 _]]].
  now exists W'.
Qed.

Lemma register_plugin_round_trip_witness :
  exists W', register_plugin plugins_world0 "Data/MyMod.esp" = (true, W') /\
             read_plugins W' = Some (["Oblivion.esm"; "Old.esp"] ++ [name (parse_path "Data/MyMod.esp")]).
Proof.
  apply (register_plugin_round_trip plugins_world0 "Data/MyMod.esp" ["Oblivion.esm"; "Old.esp"]).
  - vm_compute. reflexivity.
  - reflexivity.
  - reflexivity.
  - now left.
  - split; [intros H; vm_compute in H; discriminate H |].
    split; [vm_compute; reflexivity |]. split; vm_compute; reflexivity.
  - intros p [<- | [<- | []]]; intros H; vm_compute in H; discriminate H.
Defined.

(** After such a registration, registering any member whose file name is
    the same up to case reports success and leaves [plugins.txt] as it is:
    the name is not added twice. *)
Theorem register_plugin_idempotent (W : plugins_world) (esp_filename_in_archive : string)
    (cur : list string) :
  read_plugins W = Some cur -> pt_readable W = true -> pt_writable W = true ->
  pt_linesep W = NL \/ pt_linesep W = String "013" NL ->
  line_ok (name (parse_path esp_filename_in_archive)) ->
  (forall p, In p cur -> lower p <> lower (name (parse_path esp_filename_in_archive))) ->
  exists W', register_plugin W esp_filename_in_archive = (true, W') /\
    forall other, lower (name (parse_path other)) = lower (name (parse_path esp_filename_in_archive)) ->
                  register_plugin W' other = (true, W').
Proof.
  intros Hr Hrd Hw Hls Hb Hf.
  destruct (register_round_trip_aux W esp_filename_in_archive cur Hr Hrd Hw Hls Hb Hf)
    as [W' [E1 [E2 _]]].
  exists W'. split; [exact E1 |]. intros other Ho.
  unfold register_plugin. cbv zeta. rewrite E2.
  replace (existsb _ _) with true; [reflexivity |]. symmetry. apply existsb_exists.
  exists (name (parse_path esp_filename_in_archive)).
  split; [apply in_or_app; right; now left | apply String.eqb_eq; exact Ho].
Qed.

Lemma register_plugin_idempotent_witness :
  exists W', register_plugin plugins_world0 "Data/MyMod.esp" = (true, W') /\
    forall other, lower (name (parse_path other)) = lower (name (parse_path "Data/MyMod.esp")) ->
                  register_plugin W' other = (true, W').
Proof.
  apply (register_plugin_idempotent plugins_world0 "Data/MyMod.esp" ["Oblivion.esm"; "Old.esp"]).
  - vm_compute. reflexivity.
  - reflexivity.
  - reflexivity.
  - now left.
  - split; [intros H; vm_compute in H; discriminate H |].
    split; [vm_compute; reflexivity |]. split; vm_compute; reflexivity.
  - intros p [<- | [<- | []]]; intros H; vm_compute in H; discriminate H.
Defined.

(** Registering a member whose file name starts with ['#'] (and holds no
    line break) reports success when [plugins.txt] can be read and
    written, yet the name is written as a comment line: reading the file
    afterwards gives exactly the entries it had before. *)
Theorem register_plugin_comment_name (W : plugins_world) (esp_filename_in_archive t : string)
    (cur : list string) :
  read_plugins W = Some cur -> pt_readable W = true -> pt_writable W = true ->
  pt_linesep W = NL \/ pt_linesep W = String "013" NL ->
  name (parse_path esp_filename_in_archive) = String "#" t -> has_line_break t = false ->
  exists W', register_plugin W esp_filename_in_archive = (true, W') /\ read_plugins W' = Some cur.
Proof.
  intros Hr Hrd Hw Hls Hn Ht.
  assert (Hf : forall p, In p cur -> lower p <> lower (name (parse_path esp_filename_in_archive))).
  { intros p Hp. rewrite Hn. apply starts_hash_lower.
    exact (proj1 (List.Forall_forall _ _) (read_plugins_ok W cur Hr) p Hp). }
  assert (Hb : has_line_break (name (parse_path esp_filename_in_archive)) = false)
    by (rewrite Hn; exact Ht).
  assert (Hne : name (parse_path esp_filename_in_archive) <> "") by (rewrite Hn; discriminate).
  destruct (register_fresh W esp_filename_in_archive cur Hr Hrd Hw Hls Hb Hne Hf) as [E1 E2].
  eexists. split; [exact E1 |]. rewrite E2. rewrite Hn. cbn [List.filter].
  rewrite strip_hash. cbn [negb]. rewrite andb_false_r. cbn [map]. now rewrite app_nil_r.
Qed.

Lemma register_plugin_comment_name_witness :
  exists W', register_plugin plugins_world0 "Data/#Hidden.esp" = (true, W') /\
             read_plugins W' = Some ["Oblivion.esm"; "Old.esp"].
Proof.
  apply (register_plugin_comment_name plugins_world0 "Data/#Hidden.esp" "Hidden.esp").
  - vm_compute. reflexivity.
  - reflexivity.
  - reflexivity.
  - now left.
  - vm_compute. reflexivity.
  - vm_compute. reflexivity.
Defined.

(** Unregistering a name when [plugins.txt] can be read and written, with
    ["\n"] or ["\r\n"] line endings, reports success and removes every
    entry equal to it up to case, keeping the others in their order. *)
Theorem remove_plugin_round_trip (W : plugins_world) (esp_basename : string) (cur : list string) :
  read_plugins W = Some cur -> pt_writable W = true ->
  pt_linesep W = NL \/ pt_linesep W = String "013" NL ->
  exists W', remove_plugin_from_registry W esp_basename = (true, W') /\
    read_plugins W' = Some (List.filter (fun p => negb (String.eqb (lower p) (lower esp_basename))) cur).
Proof. apply remove_round_trip_aux. Qed.

Lemma remove_plugin_round_trip_witness :
  exists W', remove_plugin_from_registry plugins_world0 "OLD.ESP" = (true, W') /\
    read_plugins W' = Some (List.filter (fun p => negb (String.eqb (lower p) (lower "OLD.ESP")))
                              ["Oblivion.esm"; "Old.esp"]).
Proof.
  apply (remove_plugin_round_trip plugins_world0 "OLD.ESP" ["Oblivion.esm"; "Old.esp"]).
  - vm_compute. reflexivity.
  - reflexivity.
  - now left.
Defined.

(** Registering a fresh, well-formed name and then unregistering that
    name both succeed and leave [plugins.txt] reading as it did before. *)
Theorem register_then_remove (W : plugins_world) (esp_filename_in_archive : string)
    (cur : list string) :
  read_plugins W = Some cur -> pt_readable W = true -> pt_writable W = true ->
  pt_linesep W = NL \/ pt_linesep W = String "013" NL ->
  line_ok (name (parse_path esp_filename_in_archive)) ->
  (forall p, In p cur -> lower p <> lower (name (parse_path esp_filename_in_archive))) ->
  exists W1 W2, register_plugin W esp_filename_in_archive = (true, W1) /\
    remove_plugin_from_registry W1 (name (parse_path esp_filename_in_archive)) = (true, W2) /\
    read_plugins W2 = Some cur.
Proof.
  intros Hr Hrd Hw Hls Hb Hf.
  destruct (register_round_trip_aux W esp_filename_in_archive cur Hr Hrd Hw Hls Hb Hf)
    as [W1 [E1 [E2 [_ [Hw1 Hls1]]]]].
  rewrite <- Hls1 in Hls.
  destruct (remove_round_trip_aux W1 (name (parse_path esp_filename_in_archive)) _ E2 Hw1 Hls)
    as [W2 [E3 E4]].
  exists W1, W2. split; [exact E1 | split; [exact E3 |]]. rewrite E4.
  rewrite List.filter_app. cbn [List.filter]. rewrite String.eqb_refl. cbn [negb].
  rewrite app_nil_r, filter_all_true; [reflexivity |].
  intros p Hp. apply negb_true_iff, not_true_iff_false. intros E.
  apply String.eqb_eq in E. exact (Hf p Hp E).
Qed.

Lemma register_then_remove_witness :
  exists W1 W2, register_plugin plugins_world0 "Data/MyMod.esp" = (true, W1) /\
    remove_plugin_from_registry W1 (name (parse_path "Data/MyMod.esp")) = (true, W2) /\
    read_plugins W2 = Some ["Oblivion.esm"; "Old.esp"].
Proof.
  apply (register_then_remove plugins_world0 "Data/MyMod.esp" ["Oblivion.esm"; "Old.esp"]).
  - vm_compute. reflexivity.
  - reflexivity.
  - reflexivity.
  - now left.
  - split; [intros H; vm_compute in H; discriminate H |].
    split; [vm_compute; reflexivity |]. split; vm_compute; reflexivity.
  - intros p [<- | [<- | []]]; intros H; vm_compute in H; discriminate H.
Defined.

(** The custom mods offered by the ESP uninstaller are exactly the custom
    section of the load-order editor, in the same order: the entries of
    [plugins.txt] whose lower-case form is not a default plugin; when the
    file cannot be read, none are offered. *)
Theorem custom_mods_match_load_order (W : plugins_world) :
  get_installed_custom_mods W
  = match read_plugins W with
    | Some all_plugins => snd (separate all_plugins)
    | None => []
    end.
Proof.
  unfold get_installed_custom_mods. destruct (read_plugins W) as [l|]; [| reflexivity].
  rewrite separate_eq. cbn [snd]. unfold is_default. now rewrite default_plugins_lowercase.
Qed.

(* ================================================================== *)
(** ** Uninstallation and selection *)

Module MenuFacts.

Lemma choose_loop_in {A} (items : list A) inputs x rest :
  choose_loop items inputs = (Picked x, rest) -> In x items.
Proof.
  induction inputs as [|[line|] inputs IH]; cbn [choose_loop]; [discriminate | | discriminate].
  destruct (String.eqb (strip (lower line)) "c"); [discriminate |].
  destruct (py_int (strip (lower line))) as [k|]; [| exact IH].
  destruct ((0 <=? k - 1)%Z && (k - 1 <? Z.of_nat (length items))%Z); [| exact IH].
  destruct (items !! Z.to_nat (k - 1)) as [y|] eqn:E; [| exact IH].
  intros [= -> _]. apply list_elem_of_In. eapply list_elem_of_lookup_2. exact E.
Qed.

Lemma remove_read_after W b cur ok W' :
  read_plugins W = Some cur ->
  pt_linesep W = NL \/ pt_linesep W = String "013" NL ->
  remove_plugin_from_registry W b = (ok, W') ->
  exists cur', read_plugins W' = Some cur' /\
    (cur' = cur \/ cur' = List.filter (fun p => negb (String.eqb (lower p) (lower b))) cur).
Proof.
  intros Hr Hls. unfold remove_plugin_from_registry. rewrite Hr. cbv zeta.
  set (f := fun p => negb (String.eqb (lower p) (lower b))).
  destruct (Nat.eqb (length (List.filter f cur)) (length cur)) eqn:Hl.
  - intros [= _ <-]. exists cur. now split; [| left].
  - destruct (pt_writable W) eqn:Hw.
    + rewrite write_plugins_ok by exact Hw. intros [= _ <-].
      assert (Hne : cur <> []) by (intros ->; discriminate Hl).
      rewrite read_with_content by exact (read_plugins_nonempty W cur Hr Hne).
      pose proof (Forall_filter_l _ f _ (read_plugins_ok W cur Hr)) as Hok.
      rewrite read_written; [| exact Hls | now apply line_ok_weak].
      rewrite keep_line_ok by exact Hok. eexists. split; [reflexivity | now right].
    + unfold write_plugins, write_plugins_file. rewrite Hw. intros [= _ <-].
      exists cur. now split; [| left].
Qed.

Lemma delete_esp_file_paths esp_data F b d :
  In d (snd (delete_esp_file esp_data F b)) -> d = as_posix (div esp_data b).
Proof.
  unfold delete_esp_file. destruct (fs_exists F (as_posix (div esp_data b))); cbn [negb].
  - destruct (fs_unlink F (as_posix (div esp_data b))); cbn [snd]; [intros [] | intros [<- | []]]; reflexivity.
  - intros [].
Qed.

Lemma custom_mods_In W cur x :
  read_plugins W = Some cur -> In x (get_installed_custom_mods W) ->
  In x cur /\ mem (lower x) DEFAULT_PLUGINS = false.
Proof.
  unfold get_installed_custom_mods. intros -> Hx. apply filter_In in Hx as [Hx Hd].
  split; [exact Hx | now apply negb_true_iff].
Qed.

Lemma default_kept cur x p :
  mem (lower x) DEFAULT_PLUGINS = false -> In p cur -> mem (lower p) DEFAULT_PLUGINS = true ->
  In p (List.filter (fun q => negb (String.eqb (lower q) (lower x))) cur).
Proof.
  intros Hx Hp Hd. apply filter_In. split; [exact Hp |].
  apply negb_true_iff, not_true_iff_false. intros E. apply String.eqb_eq in E.
  rewrite E in Hd. congruence.
Qed.

Lemma pak_sets_complete members :
  Forall (fun s => complete s = true) (pak_sets_of_members members).
Proof.
  unfold pak_sets_of_members.
  assert (G : forall d acc, Forall (fun s => complete s = true) acc ->
    Forall (fun s => complete s = true)
      (fold_left (fun pak_sets (kv : string * pak_set) =>
                    if complete (snd kv) then pak_sets ++ [snd kv] else pak_sets) d acc)).
  { induction d as [|kv d IH]; intros acc Hacc; [exact Hacc |]. cbn [fold_left]. apply IH.
    destruct (complete (snd kv)) eqn:Hc; [| exact Hacc].
    apply Forall_app. split; [exact Hacc | now constructor]. }
  apply G. constructor.
Qed.

Lemma complete_pak s : complete s = true -> exists p, pak s = Some p.
Proof.
  unfold complete, truthy. destruct (pak s) as [p|]; [eauto | discriminate].
Qed.




End MenuFacts.

Import MenuFacts.

(** ESP uninstallation never touches a default plugin: every file it
    deletes is [ESP_DATA_PATH / x] for an entry [x] of [plugins.txt] whose
    lower-case form is not a default plugin, and every default entry of
    [plugins.txt] is still listed when the file is read afterwards (with
    ["\n"] or ["\r\n"] line endings), whatever the user answers. *)
Theorem esp_uninstall_keeps_defaults (esp_data : pure_path) (W : plugins_world) (F : files)
    (inputs : list input) (cur : list string) (o : outcome) (W' : plugins_world)
    (deleted : list string) :
  read_plugins W = Some cur ->
  pt_linesep W = NL \/ pt_linesep W = String "013" NL ->
  process_esp_uninstallation esp_data W F inputs = (o, W', deleted) ->
  (forall d, In d deleted ->
     exists x, d = as_posix (div esp_data x) /\ In x cur /\ mem (lower x) DEFAULT_PLUGINS = false) /\
  (exists cur', read_plugins W' = Some cur' /\
     forall p, In p cur -> mem (lower p) DEFAULT_PLUGINS = true -> In p cur').
Proof.
  intros Hr Hls. unfold process_esp_uninstallation.
  assert (Kept : forall W2, W2 = W -> (forall d, In d [] -> exists x, d = as_posix (div esp_data x)
       /\ In x cur /\ mem (lower x) DEFAULT_PLUGINS = false) /\
     (exists cur', read_plugins W2 = Some cur' /\
        forall p, In p cur -> mem (lower p) DEFAULT_PLUGINS = true -> In p cur'))
    by (intros W2 ->; split; [intros d [] | exists cur; split; [exact Hr | tauto]]).
  destruct (get_installed_custom_mods W) as [|m ms] eqn:Hm;
    [intros [= <- <- <-]; now apply Kept |].
  destruct (choose_loop (m :: ms) inputs) as [[x | |] rest] eqn:Hc;
    [| intros [= <- <- <-]; now apply Kept | intros [= <- <- <-]; now apply Kept].
  assert (Hx : In x (get_installed_custom_mods W)) by (rewrite Hm; exact (choose_loop_in _ _ _ _ Hc)).
  destruct (custom_mods_In W cur x Hr Hx) as [Hxc Hxd].
  destruct rest as [|[conf|] rest']; [intros [= <- <- <-]; now apply Kept | |
                                      intros [= <- <- <-]; now apply Kept].
  destruct (negb (String.eqb (strip (lower conf)) "y")); [intros [= <- <- <-]; now apply Kept |].
  destruct (remove_plugin_from_registry W x) as [reg_ok W1] eqn:Hrm.
  destruct (delete_esp_file esp_data F x) as [file_ok del] eqn:Hdel.
  intros [= <- <- <-]. split.
  - intros d Hd. exists x. split; [| now split].
    apply (delete_esp_file_paths esp_data F x). now rewrite Hdel.
  - destruct (remove_read_after W x cur reg_ok W1 Hr Hls Hrm) as [cur' [E Hc']].
    exists cur'. split; [exact E |]. intros p Hp Hd.
    destruct Hc' as [-> | ->]; [exact Hp | now apply default_kept].
Qed.

Lemma esp_uninstall_keeps_defaults_witness :
  (forall d, In d ["/data/Old.esp"] ->
     exists x, d = as_posix (div (parse_path "/data") x) /\ In x ["Oblivion.esm"; "Old.esp"] /\
               mem (lower x) DEFAULT_PLUGINS = false) /\
  (exists cur', read_plugins (with_content plugins_world0
                                (translate_newlines NL (written_text ["Oblivion.esm"]))) = Some cur' /\
     forall p, In p ["Oblivion.esm"; "Old.esp"] -> mem (lower p) DEFAULT_PLUGINS = true -> In p cur').
Proof.
  apply (esp_uninstall_keeps_defaults (parse_path "/data") plugins_world0 esp_files0
           [Some "1"; Some "y"] ["Oblivion.esm"; "Old.esp"] (Returned true)).
  - vm_compute. reflexivity.
  - now left.
  - vm_compute. reflexivity.
Defined.



(** Whatever [plugins.txt] holds, every entry [read_plugins_file] returns
    is non-empty, equal to its stripped form, does not start with ['#']
    and holds no line break; so writing the list that was read (with
    ["\n"] or ["\r\n"] line endings) and reading again gives the same
    list. *)
Theorem read_plugins_file_stable (file : option string) (linesep : string) :
  linesep = NL \/ linesep = String "013" NL ->
  Forall line_ok (read_plugins_file file) /\
  read_plugins_file (snd (write_plugins_file true linesep (read_plugins_file file)))
  = read_plugins_file file.
Proof.
  intros Hls. pose proof (read_line_ok file) as Hok. split; [exact Hok |].
  cbn [write_plugins_file negb snd].
  rewrite read_written; [| exact Hls | now apply line_ok_weak]. now apply keep_line_ok.
Qed.

Lemma read_plugins_file_stable_witness :
  let file := Some ("  A.esp " +s+ String "013" NL +s+ "#c" +s+ NL +s+ String "013" "B.esp") in
  Forall line_ok (read_plugins_file file) /\
  read_plugins_file (snd (write_plugins_file true (String "013" NL) (read_plugins_file file)))
  = read_plugins_file file.
Proof.
  apply (read_plugins_file_stable
           (Some ("  A.esp " +s+ String "013" NL +s+ "#c" +s+ NL +s+ String "013" "B.esp"))).
  now right.
Defined.

Module SelectFacts.

Lemma find_pak_sets_Ok E archive_path pak_sets :
  find_pak_sets_in_archive E archive_path = Ok pak_sets ->
  exists members, pak_sets = pak_sets_of_members members.
Proof.
  unfold find_pak_sets_in_archive. destruct (get_archive_member_list E archive_path) as [ms|e].
  - intros [= <-]. eauto.
  - destruct (reraised e); discriminate.
Qed.

Lemma no_missing_pak pak_sets :
  Forall (fun s => complete s = true) pak_sets ->
  existsb (fun s => match pak s with Some _ => false | None => true end) pak_sets = false.
Proof.
  induction pak_sets as [|s l IH]; intros H; [reflexivity |].
  inversion H as [| ? ? Hs Hl]; subst. cbn [existsb].
  destruct (complete_pak s Hs) as [p ->]. now apply IH.
Qed.

Lemma supported_iff E archive_path :
  is_supported_archive E archive_path
  = String.eqb (archive_ext archive_path) ".zip"
    || (String.eqb (archive_ext archive_path) ".rar" && RAR_SUPPORT E
        || String.eqb (archive_ext archive_path) ".7z" && SEVENZIP_SUPPORT E).
Proof.
  unfold is_supported_archive, SUPPORTED_EXTENSIONS, mem. fold (archive_ext archive_path).
  destruct (RAR_SUPPORT E), (SEVENZIP_SUPPORT E); cbn [app existsb];
    rewrite ?andb_true_r, ?andb_false_r, ?orb_false_r; reflexivity.
Qed.

End SelectFacts.

Import SelectFacts.

(** The Pak-set prompt never raises on the sets that
    [find_pak_sets_in_archive] returns (each has its [.pak] member, so the
    displayed names can be computed), and a set it selects is one of them. *)
Theorem select_pak_set_found (E : env) (archive_path : string) (pak_sets : list pak_set)
    (inputs : list input) :
  find_pak_sets_in_archive E archive_path = Ok pak_sets ->
  exists c rest, select_pak_set_from_list pak_sets inputs = Some (c, rest) /\
    forall s, c = Picked s -> In s pak_sets.
Proof.
  intros H. destruct (find_pak_sets_Ok _ _ _ H) as [ms ->].
  pose proof (pak_sets_complete ms) as Hc. revert Hc H. generalize (pak_sets_of_members ms).
  intros l Hc _. unfold select_pak_set_from_list.
  destruct l as [|s0 ss]; [exists NoneChosen, inputs; split; [reflexivity | discriminate] |].
  rewrite no_missing_pak by exact Hc.
  destruct ss as [|s1 ss].
  - exists (Picked s0), inputs. split; [reflexivity |]. intros s [= ->]. now left.
  - destruct (choose_loop (s0 :: s1 :: ss) inputs) as [c rest] eqn:Hl.
    exists c, rest. split; [reflexivity |]. intros s ->. exact (choose_loop_in _ _ _ _ Hl).
Qed.

Lemma select_pak_set_found_witness :
  exists c rest, select_pak_set_from_list
                   [{| pak := Some "Mod/A.pak"; ucas := Some "Mod/A.ucas"; utoc := Some "Mod/A.utoc" |}]
                   [] = Some (c, rest) /\
    forall s, c = Picked s ->
      In s [{| pak := Some "Mod/A.pak"; ucas := Some "Mod/A.ucas"; utoc := Some "Mod/A.utoc" |}].
Proof.
  apply (select_pak_set_found pak_env "mod.zip"). vm_compute. reflexivity.
Defined.

(** [is_supported_archive] accepts an archive exactly when the reader and
    the extractor dispatch it to a format library: when every library lists
    and extracts the file without raising and the target directory is
    available, [_get_archive_member_list] and [_extract_files_from_archive]
    succeed on an archive it accepts and raise on any other. *)
Theorem supported_archive_dispatch (E : env) (archive_path : string)
    (files_to_extract : list string) (target_dir : string) l1 l2 l3 :
  zip_infolist E archive_path = Ok l1 -> rar_infolist E archive_path = Ok l2 ->
  sz_list E archive_path = Ok l3 -> mkdir_ok E target_dir = true ->
  (forall f, zip_extract E archive_path f target_dir = None) ->
  (forall f, rar_extract E archive_path f target_dir = None) ->
  sz_extract E archive_path files_to_extract target_dir = None ->
  (is_supported_archive E archive_path = true <->
     exists members, get_archive_member_list E archive_path = Ok members) /\
  (is_supported_archive E archive_path = true <->
     exists paths, fst (extract_files_from_archive E archive_path files_to_extract target_dir)
                   = Ok paths).
Proof.
  intros H1 H2 H3 Hd Hz Hr Hs. rewrite supported_iff.
  unfold get_archive_member_list, extract_files_from_archive. cbv zeta.
  rewrite H1, H2, H3, Hd, Hs. cbn [negb].
  rewrite !extract_each_ok by (intros f _; auto).
  destruct (String.eqb (archive_ext archive_path) ".zip"); cbn [orb];
    [split; split; eauto |].
  destruct (String.eqb (archive_ext archive_path) ".rar" && RAR_SUPPORT E); cbn [orb];
    [split; split; eauto |].
  destruct (String.eqb (archive_ext archive_path) ".7z" && SEVENZIP_SUPPORT E);
    split; split; eauto; try discriminate; intros [x Hx]; discriminate Hx.
Qed.

Lemma supported_archive_dispatch_witness :
  (is_supported_archive pak_env "mod.7z" = true <->
     exists members, get_archive_member_list pak_env "mod.7z" = Ok members) /\
  (is_supported_archive pak_env "mod.7z" = true <->
     exists paths, fst (extract_files_from_archive pak_env "mod.7z" ["Mod/A.pak"] "/paks")
                   = Ok paths).
Proof.
  apply (supported_archive_dispatch pak_env "mod.7z" ["Mod/A.pak"] "/paks"
           [("Mod/A.pak", false); ("Mod/A.ucas", false); ("Mod/A.utoc", false)]
           [("Mod/A.pak", Some false)] [("Mod/A.pak", false)]); reflexivity.
Defined.

Module InstallFacts.

Lemma select_pak_in pak_sets inputs s rest :
  select_pak_set_from_list pak_sets inputs = Some (Picked s, rest) -> In s pak_sets.
Proof.
  unfold select_pak_set_from_list. destruct pak_sets as [|s0 ss]; [congruence |].
  destruct (existsb _ _); [discriminate |].
  destruct ss as [|s1 ss]; [intros [= <- _]; now left |].
  intros [= H]. exact (choose_loop_in _ _ _ _ H).
Qed.

Lemma select_esp_in esp_files inputs x rest :
  select_esp_from_list esp_files inputs = (Picked x, rest) -> In x esp_files.
Proof.
  unfold select_esp_from_list. destruct esp_files as [|e0 es]; [congruence |].
  destruct es as [|e1 es]; [intros [= <- _]; now left |].
  apply choose_loop_in.
Qed.

Lemma filter_nil_Forall {A} (f : A -> bool) l :
  List.filter f l = [] -> Forall (fun x => f x = false) l.
Proof.
  induction l as [|a l IH]; [constructor |]. cbn [List.filter].
  destruct (f a) eqn:Ha; [discriminate | intros H; constructor; auto].
Qed.

Lemma forallb_Forall {A} (f : A -> bool) l :
  forallb f l = true -> Forall (fun x => f x = true) l.
Proof. intros H. apply List.Forall_forall. now apply forallb_forall. Qed.

Lemma not_In_mem x l : ~ In x l -> mem x l = false.
Proof. intros H. apply not_true_iff_false. intros E. apply mem_In in E. contradiction. Qed.

Lemma fold_delete F (fps : list pure_path) ok del :
  List.NoDup (del ++ map as_posix fps) ->
  fold_left
    (fun (st : bool * list string) fp =>
       let '(all_ok, deleted) := st in
       let s := as_posix fp in
       if fs_exists F s && negb (mem s deleted) then
         match fs_unlink F s with
         | None => (all_ok, deleted ++ [s])
         | Some _ => (false, deleted)
         end
       else if negb (String.eqb (lower (suffix fp)) ".pak") then (all_ok, deleted)
       else (false, deleted)) fps (ok, del)
  = (ok && forallb (fun fp => if fs_exists F (as_posix fp)
                              then match fs_unlink F (as_posix fp) with None => true | Some _ => false end
                              else negb (String.eqb (lower (suffix fp)) ".pak")) fps,
     del ++ List.filter (fun s => fs_exists F s &&
                                  match fs_unlink F s with None => true | Some _ => false end)
              (map as_posix fps)).
Proof.
  revert ok del. induction fps as [|fp fps IH]; intros ok del Hnd; cbn [fold_left forallb map List.filter].
  - now rewrite andb_true_r, app_nil_r.
  - cbn [map] in Hnd. rewrite (not_In_mem (as_posix fp) del)
      by (intros Hin; apply (NoDup_remove_2 _ _ _ Hnd); apply in_or_app; now left).
    rewrite andb_true_r. pose proof (NoDup_remove_1 _ _ _ Hnd) as Hnd'.
    destruct (fs_exists F (as_posix fp)) eqn:Hx; cbn [andb].
    + destruct (fs_unlink F (as_posix fp)) eqn:Hu.
      * rewrite IH by exact Hnd'. now rewrite andb_false_r, andb_false_l.
      * rewrite IH by (now rewrite <- app_assoc). rewrite andb_true_l, <- app_assoc. reflexivity.
    + destruct (negb (String.eqb (lower (suffix fp)) ".pak")); rewrite IH by exact Hnd';
        [now rewrite andb_true_l | now rewrite andb_false_r, andb_false_l].
Qed.

Lemma extract_each_Ok ex target_dir files acc r :
  extract_each ex target_dir files acc = Ok r ->
  r = acc ++ map (div (parse_path target_dir)) files.
Proof.
  revert acc. induction files as [|f files IH]; intros acc; cbn [extract_each map].
  - intros [= <-]. now rewrite app_nil_r.
  - destruct (ex f); [discriminate |]. intros H. rewrite (IH _ H). now rewrite <- app_assoc.
Qed.

Lemma extract_files_Ok E archive_path files target_dir paths :
  fst (extract_files_from_archive E archive_path files target_dir) = Ok paths ->
  paths = map (fun f => as_posix (div (parse_path target_dir) f)) files.
Proof.
  unfold extract_files_from_archive. cbv zeta.
  destruct (negb (mkdir_ok E target_dir)); [discriminate |].
  rewrite <- (map_map (div (parse_path target_dir)) as_posix).
  destruct (String.eqb (archive_ext archive_path) ".zip").
  { destruct (extract_each _ _ _ _) as [ps|e] eqn:Hb; [| discriminate].
    cbn [fst]. intros [= <-]. now rewrite (extract_each_Ok _ _ _ _ _ Hb). }
  destruct (String.eqb (archive_ext archive_path) ".rar" && RAR_SUPPORT E).
  { destruct (extract_each _ _ _ _) as [ps|e] eqn:Hb; [| discriminate].
    cbn [fst]. intros [= <-]. now rewrite (extract_each_Ok _ _ _ _ _ Hb). }
  destruct (String.eqb (archive_ext archive_path) ".7z" && SEVENZIP_SUPPORT E); [| discriminate].
  destruct (sz_extract E archive_path files target_dir); [discriminate |].
  cbn [fst]. now intros [= <-].
Qed.

End InstallFacts.

Import InstallFacts.

(** [extract_esp_to_temp] either returns a path that exists after the
    extraction, or raises [RuntimeError] whose message starts with
    ["Failed ESP extraction '<esp_path_in_archive>': "]: every failure of
    the extraction, including a missing extracted file, is reported this
    way. *)
Theorem extract_esp_to_temp_result (E : env) (archive_path esp_path_in_archive temp_dir : string) :
  match extract_esp_to_temp E archive_path esp_path_in_archive temp_dir with
  | Ok p => exists_after E p = true
  | Err e => exists msg,
      e = RuntimeError ("Failed ESP extraction '" +s+ esp_path_in_archive +s+ "': " +s+ msg)
  end.
Proof.
  unfold extract_esp_to_temp. cbv zeta.
  destruct (fst (extract_files_from_archive E archive_path [esp_path_in_archive]
                   (as_posix (parse_path temp_dir)))) as [[|p0 ps]|e]; eauto.
  destruct (exists_after E (as_posix (parse_path p0))) eqn:Hx; eauto.
Qed.

(** When Pak installation reports success, the chosen set is one that
    [find_pak_sets_in_archive] found, its three members were extracted
    into [PAK_MODS_PATH] without error (at [PAK_MODS_PATH / member], the
    member's folders kept), and what was checked to exist afterwards is
    [PAK_MODS_PATH / name] for the file name of each member. *)
Theorem pak_install_success (E : env) (pak_mods : pure_path) (exists_before : string -> bool)
    (archive_path : string) (inputs : list input) (r : option (result (list string))) :
  process_pak_installation E pak_mods exists_before archive_path inputs = (Returned true, r) ->
  exists pak_sets s pk uc ut paths,
    find_pak_sets_in_archive E archive_path = Ok pak_sets /\ In s pak_sets /\
    pak s = Some pk /\ ucas s = Some uc /\ utoc s = Some ut /\
    r = Some (Ok paths) /\
    fst (extract_files_from_archive E archive_path [pk; uc; ut] (as_posix pak_mods)) = Ok paths /\
    paths = map (fun f => as_posix (div (parse_path (as_posix pak_mods)) f)) [pk; uc; ut] /\
    Forall (fun f => exists_after E (as_posix (div pak_mods (name (parse_path f)))) = true)
      [pk; uc; ut].
Proof.
  unfold process_pak_installation. intros H.
  destruct (find_pak_sets_in_archive E archive_path) as [l|e] eqn:Hf; [| congruence].
  destruct l as [|s0 ss]; [congruence |].
  destruct (select_pak_set_from_list (s0 :: ss) inputs) as [[[s| |] rest]|] eqn:Hs;
    try congruence.
  destruct (pak s) as [pk|] eqn:Hp, (ucas s) as [uc|] eqn:Hu, (utoc s) as [ut|] eqn:Ht;
    try congruence.
  destruct (negb (mkdir_ok E (as_posix pak_mods))); [congruence |]. cbv zeta in H.
  match type of H with
  | match ?g with _ => _ end = _ => destruct g as [[|]|]; [| congruence | congruence]
  end.
  destruct (fst (extract_files_from_archive E archive_path [pk; uc; ut] (as_posix pak_mods)))
    as [paths|e] eqn:Hx; [| congruence].
  injection H as Hall <-.
  exists (s0 :: ss), s, pk, uc, ut, paths.
  repeat split; auto.
  - exact (select_pak_in _ _ _ _ Hs).
  - exact (extract_files_Ok _ _ _ _ _ Hx).
  - rewrite !andb_true_iff in Hall. destruct Hall as [H1 [H2 [H3 _]]].
    repeat constructor; assumption.
Qed.

Lemma pak_install_success_witness :
  exists pak_sets s pk uc ut paths,
    find_pak_sets_in_archive pak_env "mod.zip" = Ok pak_sets /\ In s pak_sets /\
    pak s = Some pk /\ ucas s = Some uc /\ utoc s = Some ut /\
    Some (Ok ["/paks/Mod/A.pak"; "/paks/Mod/A.ucas"; "/paks/Mod/A.utoc"]) = Some (Ok paths) /\
    fst (extract_files_from_archive pak_env "mod.zip" [pk; uc; ut] (as_posix (parse_path "/paks")))
      = Ok paths /\
    paths = map (fun f => as_posix (div (parse_path (as_posix (parse_path "/paks"))) f)) [pk; uc; ut] /\
    Forall (fun f => exists_after pak_env (as_posix (div (parse_path "/paks") (name (parse_path f))))
                     = true) [pk; uc; ut].
Proof.
  apply (pak_install_success pak_env (parse_path "/paks") (fun _ => false) "mod.zip" []).
  vm_compute. reflexivity.
Defined.

(** Pak installation never extracts over existing files without consent:
    when it calls [_extract_files_from_archive], either none of the three
    target names existed in [PAK_MODS_PATH] beforehand, or the next answer
    after the selection was ["y"] (ignoring case and surrounding
    whitespace). *)
Theorem pak_install_asks_before_overwrite (E : env) (pak_mods : pure_path)
    (exists_before : string -> bool) (archive_path : string) (inputs : list input)
    (o : outcome) (r : result (list string)) :
  process_pak_installation E pak_mods exists_before archive_path inputs = (o, Some r) ->
  exists pak_sets s pk uc ut rest,
    find_pak_sets_in_archive E archive_path = Ok pak_sets /\
    select_pak_set_from_list pak_sets inputs = Some (Picked s, rest) /\
    pak s = Some pk /\ ucas s = Some uc /\ utoc s = Some ut /\
    (Forall (fun tn => exists_before (as_posix (div pak_mods tn)) = false)
       [name (parse_path pk); name (parse_path uc); name (parse_path ut)] \/
     exists ovr rest', rest = Some ovr :: rest' /\ strip (lower ovr) = "y").
Proof.
  unfold process_pak_installation. intros H.
  destruct (find_pak_sets_in_archive E archive_path) as [l|e] eqn:Hf; [| congruence].
  destruct l as [|s0 ss]; [congruence |].
  destruct (select_pak_set_from_list (s0 :: ss) inputs) as [[[s| |] rest]|] eqn:Hs;
    try congruence.
  destruct (pak s) as [pk|] eqn:Hp, (ucas s) as [uc|] eqn:Hu, (utoc s) as [ut|] eqn:Ht;
    try congruence.
  destruct (negb (mkdir_ok E (as_posix pak_mods))); [congruence |]. cbv zeta in H.
  exists (s0 :: ss), s, pk, uc, ut, rest. repeat split; auto.
  destruct (List.filter (fun f => exists_before (as_posix (div pak_mods f)))
              (map (fun f => name (parse_path f)) [pk; uc; ut])) as [|x xs] eqn:Hex.
  - left. exact (filter_nil_Forall _ _ Hex).
  - right. destruct rest as [|[ovr|] rest']; try congruence.
    destruct (String.eqb (strip (lower ovr)) "y") eqn:Hy; [| congruence].
    exists ovr, rest'. split; [reflexivity | now apply String.eqb_eq].
Qed.

Lemma pak_install_asks_before_overwrite_witness :
  exists pak_sets s pk uc ut rest,
    find_pak_sets_in_archive pak_env "mod.zip" = Ok pak_sets /\
    select_pak_set_from_list pak_sets [Some " Y "] = Some (Picked s, rest) /\
    pak s = Some pk /\ ucas s = Some uc /\ utoc s = Some ut /\
    (Forall (fun tn => String.eqb (as_posix (div (parse_path "/paks") tn)) "/paks/A.pak" = false)
       [name (parse_path pk); name (parse_path uc); name (parse_path ut)] \/
     exists ovr rest', rest = Some ovr :: rest' /\ strip (lower ovr) = "y").
Proof.
  apply (pak_install_asks_before_overwrite pak_env (parse_path "/paks")
           (fun p => String.eqb p "/paks/A.pak") "mod.zip" [Some " Y "] (Returned true)
           (Ok ["/paks/Mod/A.pak"; "/paks/Mod/A.ucas"; "/paks/Mod/A.utoc"])).
  vm_compute. reflexivity.
Defined.

(** With the three paths distinct, [delete_pak_mod_files] reports success
    exactly when every existing file of the set was unlinked without error
    and the missing ones all lack a [".pak"] suffix (in any case); the paths
    it deletes are the existing ones whose unlink succeeded, in the order
    [.pak], [.ucas], [.utoc]. *)
Theorem delete_pak_mod_files_result (pak_mods : pure_path) (F : files) (pak_basename : string) :
  let base := stem (parse_path pak_basename) in
  let fps := [div pak_mods pak_basename; div pak_mods (base +s+ ".ucas");
              div pak_mods (base +s+ ".utoc")] in
  List.NoDup (map as_posix fps) ->
  delete_pak_mod_files pak_mods F pak_basename
  = (forallb (fun fp => if fs_exists F (as_posix fp)
                        then match fs_unlink F (as_posix fp) with None => true | Some _ => false end
                        else negb (String.eqb (lower (suffix fp)) ".pak")) fps,
     List.filter (fun s => fs_exists F s &&
                           match fs_unlink F s with None => true | Some _ => false end)
       (map as_posix fps)).
Proof.
  intros base fps Hnd. exact (fold_delete F fps true [] Hnd).
Qed.

Lemma delete_pak_mod_files_result_witness :
  delete_pak_mod_files (parse_path "/paks") pak_files0 "A.pak"
  = (forallb (fun fp => if fs_exists pak_files0 (as_posix fp)
                        then match fs_unlink pak_files0 (as_posix fp) with None => true | Some _ => false end
                        else negb (String.eqb (lower (suffix fp)) ".pak"))
       [div (parse_path "/paks") "A.pak"; div (parse_path "/paks") (stem (parse_path "A.pak") +s+ ".ucas");
        div (parse_path "/paks") (stem (parse_path "A.pak") +s+ ".utoc")],
     List.filter (fun s => fs_exists pak_files0 s &&
                           match fs_unlink pak_files0 s with None => true | Some _ => false end)
       (map as_posix [div (parse_path "/paks") "A.pak";
                      div (parse_path "/paks") (stem (parse_path "A.pak") +s+ ".ucas");
                      div (parse_path "/paks") (stem (parse_path "A.pak") +s+ ".utoc")])).
Proof.
  apply (delete_pak_mod_files_result (parse_path "/paks") pak_files0 "A.pak").
  vm_compute. repeat constructor; cbv; intuition discriminate.
Defined.

Module InstallFacts2.

Lemma install_esp_file_true T x e inputs c :
  install_esp_file T x e inputs = (Returned true, c) ->
  c = Some (as_posix (parse_path x), as_posix (div (esp_data T) (name (parse_path e)))).
Proof.
  unfold install_esp_file. cbv zeta.
  destruct (esp_dir_ok T); cbn [negb]; [| congruence].
  destruct (copy2 T (as_posix (parse_path x)) (as_posix (div (esp_data T) (name (parse_path e)))))
    eqn:Hc.
  - destruct (dest_exists T _); [| congruence].
    destruct inputs as [|[ovr|] rest]; try congruence.
    destruct (String.eqb (strip (lower ovr)) "y"); congruence.
  - destruct (dest_exists T _); [| congruence].
    destruct inputs as [|[ovr|] rest]; try congruence.
    destruct (String.eqb (strip (lower ovr)) "y"); congruence.
Qed.

End InstallFacts2.

Import InstallFacts2.

(** ESP installation changes [plugins.txt] only after a successful copy,
    and reports success only when the copy and the registration both
    succeed: either it does not report success and leaves the registry as
    it was, or some ESP [sel] that [find_esps_in_archive] found was copied
    to [ESP_DATA_PATH / name(sel)] and the registry and the result are
    those of [register_plugin] on [sel]. *)
Theorem esp_install_registers_after_copy (E : env) (T : esp_target) (W : plugins_world)
    (archive_path : string) (inputs : list input) (o : outcome)
    (copied : option (string * string)) (W' : plugins_world) :
  process_esp_installation E T W archive_path inputs = (o, copied, W') ->
  (o <> Returned true /\ W' = W) \/
  (exists esps sel src ok, find_esps_in_archive E archive_path = Ok esps /\ In sel esps /\
     copied = Some (src, as_posix (div (esp_data T) (name (parse_path sel)))) /\
     register_plugin W sel = (ok, W') /\ o = Returned ok).
Proof.
  unfold process_esp_installation.
  destruct (find_esps_in_archive E archive_path) as [l|e] eqn:Hf;
    [| intros [= <- _ <-]; left; split; congruence].
  destruct l as [|e0 es]; [intros [= <- _ <-]; left; split; congruence |].
  destruct (select_esp_from_list (e0 :: es) inputs) as [[sel| |] rest] eqn:Hs;
    [| intros [= <- _ <-]; left; split; congruence | intros [= <- _ <-]; left; split; congruence].
  destruct (String.eqb sel ""); [intros [= <- _ <-]; left; split; congruence |].
  destruct (mkdtemp T) as [t|]; [| intros [= <- _ <-]; left; split; congruence].
  destruct (extract_esp_to_temp E archive_path sel (as_posix (parse_path t))) as [x|e];
    [| intros [= <- _ <-]; left; split; congruence].
  destruct (install_esp_file T x sel rest) as [[[|]| |] c] eqn:Hi;
    try (intros [= <- _ <-]; left; split; congruence).
  destruct (register_plugin W sel) as [ok W1] eqn:Hr. intros [= <- <- <-].
  right. exists (e0 :: es), sel, (as_posix (parse_path x)), ok.
  split; [reflexivity |]. split; [exact (select_esp_in _ _ _ _ Hs) |].
  split; [exact (install_esp_file_true _ _ _ _ _ Hi) |]. now split.
Qed.

Lemma esp_install_registers_after_copy_witness :
  (Returned true <> Returned true /\
   with_content plugins_world0
     (translate_newlines NL (written_text ["Oblivion.esm"; "Old.esp"; "New.esp"])) = plugins_world0) \/
  (exists esps sel src ok, find_esps_in_archive esp_env "mod.zip" = Ok esps /\ In sel esps /\
     Some ("/tmp/t/Mod/New.esp", "/data/New.esp")
       = Some (src, as_posix (div (esp_data esp_target0) (name (parse_path sel)))) /\
     register_plugin plugins_world0 sel
       = (ok, with_content plugins_world0
                (translate_newlines NL (written_text ["Oblivion.esm"; "Old.esp"; "New.esp"]))) /\
     Returned true = Returned ok).
Proof.
  apply (esp_install_registers_after_copy esp_env esp_target0 plugins_world0 "mod.zip" []).
  vm_compute. reflexivity.
Defined.

(** An archive is installed as one kind of mod only: the call never both
    extracts a Pak set and copies an ESP, and when
    [find_pak_sets_in_archive] finds a complete Pak set, no ESP is copied
    and [plugins.txt] is left as it was, even if the archive also holds
    [.esp] files. *)
Theorem install_mod_one_kind (E : env) (pak_mods : pure_path) (exists_before : string -> bool)
    (T : esp_target) (W : plugins_world) (archive_path : string) (inputs : list input)
    (o : outcome) (r : option (result (list string))) (copied : option (string * string))
    (W' : plugins_world) :
  install_mod_from_archive E pak_mods exists_before T W archive_path inputs = (o, r, copied, W') ->
  ((copied = None /\ W' = W) \/ r = None) /\
  ((exists s l, find_pak_sets_in_archive E archive_path = Ok (s :: l)) ->
   copied = None /\ W' = W).
Proof.
  unfold install_mod_from_archive.
  destruct (find_pak_sets_in_archive E archive_path) as [l|e] eqn:Hf;
    [| intros [= _ _ <- <-]; split; [now left | now intros]].
  destruct (find_esps_in_archive E archive_path) as [esps|e] eqn:He.
  - destruct l as [|s l].
    + destruct esps as [|x xs]; [intros [= _ _ <- <-]; split; [now left | now intros] |].
      destruct (process_esp_installation E T W archive_path inputs) as [[o1 c1] W1].
      intros [= _ <- _ _]. split; [now right |]. intros [s' [l' Hl]]. discriminate Hl.
    + destruct (process_pak_installation E pak_mods exists_before archive_path inputs) as [o1 r1].
      intros [= _ _ <- <-]. split; [now left | now intros].
  - intros [= _ _ <- <-]. split; [now left | now intros].
Qed.

Lemma install_mod_one_kind_witness :
  (((None : option (string * string)) = None /\ plugins_world0 = plugins_world0) \/
   Some (Ok ["/paks/Mod/A.pak"; "/paks/Mod/A.ucas"; "/paks/Mod/A.utoc"])
     = (None : option (result (list string)))) /\
  ((exists s l, find_pak_sets_in_archive pak_env "mod.zip" = Ok (s :: l)) ->
   (None : option (string * string)) = None /\ plugins_world0 = plugins_world0).
Proof.
  apply (install_mod_one_kind pak_env (parse_path "/paks") (fun _ => false) esp_target0
           plugins_world0 "mod.zip" [] (Returned true)
           (Some (Ok ["/paks/Mod/A.pak"; "/paks/Mod/A.ucas"; "/paks/Mod/A.utoc"]))).
  vm_compute. reflexivity.
Defined.

Module ChoiceFacts.






End ChoiceFacts.

Import ChoiceFacts.

